(** * Nika analytics API: a shallow embedding of [server/main.py]

    The development models the statistical pipeline of the server: schema
    inference ([_coerce_dataframe]), and the three request handlers
    [insights], [forecast] and [anomaly].

    Conventions of the embedding.
    - A float is an exact rational ([Q]); [None] in an [option Q] cell is
      NaN / a missing value.  Rounding of binary floating point is not
      modelled; every comparison the theorems rely on is decided exactly.
    - A square root never appears in a computed value: a standard deviation
      is carried as its square (the population variance) and a correlation
      coefficient as its square.  The threshold tests of the source are
      decided on the squares; [zscore_exceeds_real] and
      [below_threshold_real] relate them to the real-number inequalities of
      the source.
    - A Python exception is a value [Raise e] of the error monad [Exc];
      [try ... except Exception] is [try_except].
    - pandas, statsmodels and scikit-learn are not part of the repository.
      What the handlers need from them and cannot be read off the source
      is a field of the record [Env]. *)

From Stdlib Require Import List String Ascii Bool Arith ZArith QArith Qabs Qround.
From Stdlib Require Import Lia Permutation Sorted.
From Stdlib Require Import Reals Qreals Lra Psatz.
Import ListNotations.

Local Open Scope string_scope.
Local Open Scope list_scope.

(** ** Exceptions *)

Inductive Exn : Type :=
| KeyError
| IndexError
| TypeError
| ValueError
| RuntimeError.

Inductive Exc (A : Type) : Type :=
| Ok (a : A)
| Raise (e : Exn).

Arguments Ok {A} a.
Arguments Raise {A} e.

Definition bind {A B : Type} (m : Exc A) (k : A -> Exc B) : Exc B :=
  match m with
  | Ok a => k a
  | Raise e => Raise e
  end.

Notation "x <- m ;; k" := (bind m (fun x => k))
  (at level 61, m at next level, right associativity).

(** [try: body except Exception: handler] *)
Definition try_except {A : Type} (body : Exc A) (handler : Exn -> Exc A) : Exc A :=
  match body with
  | Ok a => Ok a
  | Raise e => handler e
  end.

Fixpoint mapM {A B : Type} (f : A -> Exc B) (l : list A) : Exc (list B) :=
  match l with
  | [] => Ok []
  | a :: l' => b <- f a ;; bs <- mapM f l' ;; Ok (b :: bs)
  end.

(** ** Records and typed columns *)

(** A JSON scalar of a request record.  A key that a record does not have
    reads as [RNull], as [pd.DataFrame] fills it with a missing value. *)
Inductive Raw : Type :=
| RNull
| RBool (b : bool)
| RNum (q : Q)
| RStr (s : string).

(** One element of [data : List[Dict[str, Any]]]; keys in insertion order. *)
Definition Row := list (string * Raw).

Inductive Column : Type :=
| ColNum (v : list (option Q))      (* int64 / float64 *)
| ColTime (v : list (option Z))     (* datetime64[ns] *)
| ColBool (v : list bool)           (* bool *)
| ColObj (v : list Raw).            (* object *)

(** A table: the row labels (original input positions) and the columns. *)
Record DataFrame : Type := mkDataFrame {
  index : list nat;
  columns : list (string * Column)
}.

(** ** What the handlers use of the libraries *)

Record Env : Type := mkEnv {
  (** [pd.to_numeric] on one text cell; [None] when it raises *)
  parse_float : string -> option Q;
  (** [pd.to_datetime] on one non-null cell; [None] when it raises *)
  parse_datetime : Raw -> option Z;
  (** [pd.infer_freq] on three or more sorted timestamps *)
  infer_freq : list Z -> option Z;
  (** [Series.asfreq freq] on a series indexed by sorted timestamps *)
  asfreq : option Z -> list (Z * Q) -> Exc (list (option Q));
  (** [statsmodels]: [ARIMA(ts, order=(1,1,1)).fit().forecast(steps)];
      [None] when the import failed *)
  sm : option (list (option Q) -> nat -> Exc (list (option Q)));
  (** [sklearn]: [IsolationForest(random_state=42).fit(X).predict(X)];
      [None] when the import failed *)
  IsolationForest : option (DataFrame -> Exc (list Z))
}.

(** ** [pd.DataFrame(data)] *)

Definition add_key (seen : list string) (k : string) : list string :=
  if existsb (String.eqb k) seen then seen else seen ++ [k].

(** Column labels: the keys of the records in first-seen order. *)
Definition column_names (data : list Row) : list string :=
  fold_left (fun seen r => fold_left add_key (map fst r) seen) data [].

Definition cell (k : string) (r : Row) : Raw :=
  match find (fun kv => String.eqb (fst kv) k) r with
  | Some kv => snd kv
  | None => RNull
  end.

Definition is_null (r : Raw) : bool :=
  match r with RNull => true | _ => false end.

Definition is_num (r : Raw) : bool :=
  match r with RNum _ => true | _ => false end.

Definition is_bool (r : Raw) : bool :=
  match r with RBool _ => true | _ => false end.

Definition raw_num (r : Raw) : option Q :=
  match r with RNum q => Some q | _ => None end.

Definition raw_bool (r : Raw) : bool :=
  match r with RBool b => b | _ => false end.

(** The dtype the constructor gives a column of JSON scalars: numbers
    (with missing entries) are float64, booleans alone are bool, anything
    else stays object. *)
Definition construct (vals : list Raw) : Column :=
  if forallb (fun r => is_num r || is_null r) vals && existsb is_num vals
  then ColNum (map raw_num vals)
  else if forallb is_bool vals && negb (Nat.eqb (List.length vals) 0)
  then ColBool (map raw_bool vals)
  else ColObj vals.

Definition DataFrame_of (data : list Row) : DataFrame :=
  {| index := seq 0 (List.length data);
     columns := map (fun k => (k, construct (map (cell k) data)))
                    (column_names data) |}.

(** [df.empty]: some axis has length zero. *)
Definition empty (df : DataFrame) : bool :=
  match index df, columns df with
  | [], _ => true
  | _, [] => true
  | _, _ => false
  end.

(** ** [_coerce_dataframe] *)

Definition bool_float (b : bool) : Q := if b then 1%Q else 0%Q.

(** One cell under [pd.to_numeric]: [None] raises, [Some None] is NaN. *)
Definition to_numeric_cell (env : Env) (r : Raw) : option (option Q) :=
  match r with
  | RNull => Some None
  | RBool b => Some (Some (bool_float b))
  | RNum q => Some (Some q)
  | RStr s => option_map Some (parse_float env s)
  end.

Definition to_datetime_cell (env : Env) (r : Raw) : option (option Z) :=
  match r with
  | RNull => Some None
  | _ => option_map Some (parse_datetime env r)
  end.

Definition cell_or_raise {A : Type} (f : Raw -> option A) (r : Raw) : Exc A :=
  match f r with
  | Some a => Ok a
  | None => Raise ValueError
  end.

(** [pd.to_numeric(col)] with the default [errors="raise"]. *)
Definition to_numeric (env : Env) (vals : list Raw) : Exc (list (option Q)) :=
  mapM (cell_or_raise (to_numeric_cell env)) vals.

Definition to_datetime (env : Env) (vals : list Raw) : Exc (list (option Z)) :=
  mapM (cell_or_raise (to_datetime_cell env)) vals.

(** The body of the loop over [df.columns]. *)
Definition coerce_column (env : Env) (c : Column) : Column :=
  match c with
  | ColObj vals =>
      match to_numeric env vals with
      | Ok v => ColNum v                               (* continue *)
      | Raise _ =>
          match to_datetime env vals with
          | Ok t => ColTime t
          | Raise _ => ColObj vals                     (* pass *)
          end
      end
  | _ => c
  end.

Definition _coerce_dataframe (env : Env) (data : list Row) : DataFrame :=
  let df := DataFrame_of data in
  {| index := index df;
     columns := map (fun kc => (fst kc, coerce_column env (snd kc))) (columns df) |}.


(** ** Column and frame operations *)

Definition is_numeric (c : Column) : bool :=
  match c with ColNum _ => true | _ => false end.

Definition is_datetime (c : Column) : bool :=
  match c with ColTime _ => true | _ => false end.

(** [df.select_dtypes(include=...).columns.tolist()] *)
Definition select_dtypes (include : Column -> bool) (df : DataFrame) : list string :=
  map fst (filter (fun kc => include (snd kc)) (columns df)).

Definition has_column (df : DataFrame) (k : string) : bool :=
  existsb (fun kc => String.eqb (fst kc) k) (columns df).

Definition get_column (df : DataFrame) (k : string) : option Column :=
  option_map snd (find (fun kc => String.eqb (fst kc) k) (columns df)).

Definition is_none {A : Type} (o : option A) : bool :=
  match o with None => true | Some _ => false end.

Definition isna (c : Column) : list bool :=
  match c with
  | ColNum v => map is_none v
  | ColTime v => map is_none v
  | ColBool v => map (fun _ => false) v
  | ColObj v => map is_null v
  end.

(** Selection by a boolean mask, as in [X.index[mask]]. *)
Fixpoint mask_select {A : Type} (l : list A) (mask : list bool) : list A :=
  match l, mask with
  | a :: l', b :: mask' =>
      if b then a :: mask_select l' mask' else mask_select l' mask'
  | _, _ => []
  end.

Definition take_rows (keep : list bool) (c : Column) : Column :=
  match c with
  | ColNum v => ColNum (mask_select v keep)
  | ColTime v => ColTime (mask_select v keep)
  | ColBool v => ColBool (mask_select v keep)
  | ColObj v => ColObj (mask_select v keep)
  end.

(** [Series.dropna()] on the values of a float column. *)
Fixpoint dropna_values {A : Type} (v : list (option A)) : list A :=
  match v with
  | [] => []
  | Some a :: v' => a :: dropna_values v'
  | None :: v' => dropna_values v'
  end.

(** ** Statistics *)

Definition Qltb (x y : Q) : bool := negb (Qle_bool y x).

Definition Qsum (l : list Q) : Q := fold_right Qplus 0%Q l.

Definition Qlen {A : Type} (l : list A) : Q := inject_Z (Z.of_nat (List.length l)).

Definition mean (l : list Q) : Q := (Qsum l / Qlen l)%Q.

Definition sq (x : Q) : Q := (x * x)%Q.

(** Sum of squared deviations from the mean. *)
Definition ssd (l : list Q) : Q :=
  let m := mean l in Qsum (map (fun x => sq (x - m)) l).

(** The square of [std(ddof=0)]. *)
Definition variance (l : list Q) : Q := (ssd l / Qlen l)%Q.

Fixpoint insert {A : Type} (leb : A -> A -> bool) (x : A) (l : list A) : list A :=
  match l with
  | [] => [x]
  | y :: l' => if leb x y then x :: y :: l' else y :: insert leb x l'
  end.

(** [sort_values]: ascending by [leb].  The sort is stable here (equal keys
    keep their input order); the order pandas gives to equal keys is not
    fixed by the source, and no statement below depends on it. *)
Definition sort_by {A : Type} (leb : A -> A -> bool) (l : list A) : list A :=
  fold_right (insert leb) [] l.

Definition median (l : list Q) : Q :=
  let s := sort_by Qle_bool l in
  let n := List.length s in
  if Nat.even n
  then ((nth (n / 2 - 1) s 0 + nth (n / 2) s 0) / 2)%Q
  else nth (n / 2) s 0%Q.

Definition Qmin (x y : Q) : Q := if Qle_bool x y then x else y.
Definition Qmax (x y : Q) : Q := if Qle_bool x y then y else x.

Definition minimum (l : list Q) : Q :=
  match l with [] => 0%Q | x :: l' => fold_left Qmin l' x end.

Definition maximum (l : list Q) : Q :=
  match l with [] => 0%Q | x :: l' => fold_left Qmax l' x end.

(** [Series.quantile(q)] with linear interpolation. *)
Definition quantile (q : Q) (l : list Q) : Q :=
  let s := sort_by Qle_bool l in
  let pos := (inject_Z (Z.of_nat (List.length s - 1)) * q)%Q in
  let lo := Z.to_nat (Qfloor pos) in
  let frac := (pos - inject_Z (Qfloor pos))%Q in
  let a := nth lo s 0%Q in
  let b := nth (S lo) s a in
  (a + (b - a) * frac)%Q.

(** ** [insights] *)

(** The findings appended to [result["insights"]].  Each carries the exact
    values that the source formats into the text ([std] is formatted from
    the square root of [variance], [|r|] from the square root of [r_sq]);
    a value is kept in lowest terms ([Qred]). *)
Inductive Insight : Type :=
| Summary (col : string) (mean_ median_ variance_ min_ max_ : Q)
| Trend (val : string) (change : Q)
| Correlation (a b : string) (r_sq : Q)
| Outliers (count : nat) (col : string).

(** The response; a key that was never set is [None]. *)
Record InsightsResult : Type := mkInsights {
  insights_list : list Insight;
  row_count : option nat;
  column_count : option nat
}.

(** [df[col].dropna()] for a numeric column. *)
Definition numeric_values (df : DataFrame) (col : string) : list Q :=
  match get_column df col with
  | Some (ColNum v) => dropna_values v
  | _ => []
  end.

Definition numeric_summaries (df : DataFrame) (numeric_cols : list string) : list Insight :=
  flat_map (fun col =>
    let s := numeric_values df col in
    match s with
    | [] => []                                         (* continue *)
    | _ => [Summary col (Qred (mean s)) (Qred (median s)) (Qred (variance s))
                        (Qred (minimum s)) (Qred (maximum s))]
    end) (firstn 10 numeric_cols).

(** [df[[dt, val]].dropna()]: the rows where both cells are present. *)
Fixpoint complete_pairs {A B : Type} (xs : list (option A)) (ys : list (option B))
  : list (A * B) :=
  match xs, ys with
  | Some x :: xs', Some y :: ys' => (x, y) :: complete_pairs xs' ys'
  | _ :: xs', _ :: ys' => complete_pairs xs' ys'
  | _, _ => []
  end.

Definition time_leb {B : Type} (p q : Z * B) : bool := (fst p <=? fst q)%Z.

(** [first if first else 1] *)
Definition baseline (first : Q) : Q := if Qeq_bool first 0 then 1%Q else first.

Definition percent_change (first last_ : Q) : Q :=
  ((last_ - first) / baseline first * 100)%Q.

Definition trend (df : DataFrame) (numeric_cols : list string) : list Insight :=
  match select_dtypes is_datetime df, numeric_cols with
  | dt :: _, val :: _ =>
      match get_column df dt, get_column df val with
      | Some (ColTime times), Some (ColNum vals) =>
          let ts := sort_by time_leb (complete_pairs times vals) in
          if (4 <=? List.length ts)%nat then
            let first := snd (hd (0%Z, 0%Q) ts) in
            let last_ := snd (last ts (0%Z, 0%Q)) in
            [Trend val (Qred (percent_change first last_))]
          else []
      | _, _ => []
      end
  | _, _ => []
  end.

(** The square of the Pearson coefficient over the rows where both
    columns are present; [None] is NaN (a zero denominator). *)
Definition corr_sq (xs ys : list (option Q)) : option Q :=
  let ps := complete_pairs xs ys in
  let mx := mean (map fst ps) in
  let my := mean (map snd ps) in
  let cov := Qsum (map (fun p => (fst p - mx) * (snd p - my))%Q ps) in
  let sx := Qsum (map (fun p => sq (fst p - mx)) ps) in
  let sy := Qsum (map (fun p => sq (snd p - my)) ps) in
  match ps with
  | [] => None
  | _ => if Qeq_bool (sx * sy) 0 then None else Some (sq cov / (sx * sy))%Q
  end.

Definition numeric_cells (df : DataFrame) (col : string) : list (option Q) :=
  match get_column df col with
  | Some (ColNum v) => v
  | _ => []
  end.

(** [df[numeric_cols].corr().abs().unstack()]: one entry per ordered pair. *)
Definition corr_entries (df : DataFrame) (numeric_cols : list string)
  : list ((string * string) * option Q) :=
  flat_map (fun a =>
    map (fun b => ((a, b), corr_sq (numeric_cells df a) (numeric_cells df b)))
        numeric_cols) numeric_cols.

(** Descending order on the coefficients, NaN last. *)
Definition corr_geb (e1 e2 : (string * string) * option Q) : bool :=
  match snd e1, snd e2 with
  | Some x, Some y => Qle_bool y x
  | Some _, None => true
  | None, Some _ => false
  | None, None => true
  end.

(** [|r| < 0.999], decided on the square. *)
Definition below_threshold (e : (string * string) * option Q) : bool :=
  match snd e with
  | Some v => Qltb v (998001 # 1000000)
  | None => false
  end.

Definition correlation (df : DataFrame) (numeric_cols : list string) : list Insight :=
  if (2 <=? List.length numeric_cols)%nat then
    let corr := sort_by corr_geb (corr_entries df numeric_cols) in
    let corr := filter below_threshold corr in
    match corr with
    | ((a, b), Some v) :: _ => [Correlation a b (Qred v)]
    | _ => []
    end
  else [].

Definition iqr_outliers (df : DataFrame) (numeric_cols : list string) : list Insight :=
  flat_map (fun col =>
    let s := numeric_values df col in
    if (List.length s <? 8)%nat then []                      (* continue *)
    else
      let q1 := quantile (1 # 4) s in
      let q3 := quantile (3 # 4) s in
      let iqr := (q3 - q1)%Q in
      let lower := (q1 - (3 # 2) * iqr)%Q in
      let upper := (q3 + (3 # 2) * iqr)%Q in
      let outliers := List.length (filter (fun x => Qltb x lower || Qltb upper x) s) in
      if (0 <? outliers)%nat then [Outliers outliers col] else [])
    (firstn 5 numeric_cols).

Definition insights (env : Env) (data : list Row) : InsightsResult :=
  let df := _coerce_dataframe env data in
  if empty df then
    {| insights_list := []; row_count := None; column_count := None |}
  else
    let numeric_cols := select_dtypes is_numeric df in
    {| insights_list :=
         numeric_summaries df numeric_cols ++ trend df numeric_cols
         ++ correlation df numeric_cols ++ iqr_outliers df numeric_cols;
       row_count := Some (List.length (index df));
       column_count := Some (List.length (columns df)) |}.

(** ** [forecast] *)

Record ForecastRequest : Type := mkForecastRequest {
  forecast_data : list Row;
  date_column : option string;
  target_column : string
}.

(** The response; a key that was never set is [None]. *)
Record ForecastResult : Type := mkForecast {
  message : option string;
  forecast_values : list (option Q);
  steps : option nat
}.

(** Python truth value of a string. *)
Definition truthy (s : string) : bool := negb (String.eqb s "").

(** The cells of a column as floats.  Arithmetic on a datetime column or
    on an object column (one that [pd.to_numeric] rejected) raises. *)
Definition as_float (c : Column) : Exc (list (option Q)) :=
  match c with
  | ColNum v => Ok v
  | ColBool v => Ok (map (fun b => Some (bool_float b)) v)
  | ColTime _ => Raise TypeError
  | ColObj _ => Raise TypeError
  end.

Definition target_floats (df : DataFrame) (target : string) : Exc (list (option Q)) :=
  match get_column df target with
  | Some c => as_float c
  | None => Raise KeyError
  end.

(** The [else] branch: [df[target].dropna()] on a fresh [RangeIndex]. *)
Definition index_series (df : DataFrame) (target : string) : Exc (list (option Q)) :=
  v <- target_floats df target ;;
  Ok (map Some (dropna_values v)).

(** The [if dt_col and dt_col in df.columns] branch:
    [df[[dt_col, target]].dropna().sort_values(dt_col)], then
    [set_index(dt_col)[target].asfreq(pd.infer_freq(ts[dt_col]))].
    [sort_values] refuses a label that occurs twice, and [pd.infer_freq]
    refuses an axis that is not datetime and one with fewer than three
    timestamps.  Which of several escaping exceptions is the one reported
    is not tracked. *)
Definition time_series (env : Env) (df : DataFrame) (dt_col target : string)
  : Exc (list (option Q)) :=
  if String.eqb dt_col target then Raise ValueError
  else
    match get_column df dt_col with
    | Some (ColTime times) =>
        vals <- target_floats df target ;;
        let ts := sort_by time_leb (complete_pairs times vals) in
        freq <- (if (List.length ts <? 3)%nat then Raise ValueError
                 else Ok (infer_freq env (map fst ts))) ;;
        asfreq env freq ts
    | _ => Raise TypeError
    end.

Definition window_mean (w : list (option Q)) : option Q :=
  if forallb (fun o => negb (is_none o)) w then Some (mean (dropna_values w)) else None.

(** [ts.rolling(window=window).mean()]: entry [i] is the mean of the
    [window] values ending at [i], NaN while fewer are available or one of
    them is NaN. *)
Definition rolling_mean (window : nat) (ts : list (option Q)) : list (option Q) :=
  map (fun i =>
         if (window <=? S i)%nat
         then window_mean (firstn window (skipn (S i - window) ts))
         else None)
      (seq 0 (List.length ts)).

(** [min(5, max(2, len(ts)//4)) if len(ts) >= 2 else 2] *)
Definition window_size (n : nat) : nat :=
  if (2 <=? n)%nat then Nat.min 5 (Nat.max 2 (n / 4)) else 2%nat.

(** [ts.iloc[-1]] *)
Definition iloc_last {A : Type} (l : list A) : Exc A :=
  match rev l with
  | a :: _ => Ok a
  | [] => Raise IndexError
  end.

(** The body of the [except] clause. *)
Definition moving_average_fallback (ts : list (option Q)) : Exc (list (option Q)) :=
  let window := window_size (List.length ts) in
  let ma := dropna_values (rolling_mean window ts) in
  last_ <- (match rev ma with
            | m :: _ => Ok (Some m)
            | [] => iloc_last ts
            end) ;;
  Ok (repeat last_ 12).

(** The body of the [try] clause. *)
Definition arima_forecast (env : Env) (ts : list (option Q)) : Exc (list (option Q)) :=
  match sm env with
  | Some arima =>
      if (8 <=? List.length ts)%nat then arima ts 12%nat else Raise RuntimeError
  | None => Raise RuntimeError
  end.

Definition predict (env : Env) (ts : list (option Q)) : Exc (list (option Q)) :=
  try_except (arima_forecast env ts) (fun _ => moving_average_fallback ts).

(** The time axis: the given column, else the first datetime column. *)
Definition resolve_dt_col (df : DataFrame) (dt_col : option string) : option string :=
  match dt_col with
  | Some d => if truthy d then Some d else hd_error (select_dtypes is_datetime df)
  | None => hd_error (select_dtypes is_datetime df)
  end.

Definition build_series (env : Env) (df : DataFrame) (dt_col : option string)
  (target : string) : Exc (list (option Q)) :=
  match resolve_dt_col df dt_col with
  | Some d =>
      if truthy d && has_column df d then time_series env df d target
      else index_series df target
  | None => index_series df target
  end.

Definition forecast (env : Env) (req : ForecastRequest) : Exc ForecastResult :=
  let df := _coerce_dataframe env (forecast_data req) in
  let target := target_column req in
  if empty df || negb (has_column df target) then
    Ok {| message := Some "No data or missing target.";
          forecast_values := []; steps := None |}
  else
    ts <- build_series env df (date_column req) target ;;
    fv <- predict env ts ;;
    Ok {| message := None; forecast_values := fv; steps := Some 12%nat |}.

(** ** [anomaly] *)

Record AnomalyRequest : Type := mkAnomalyRequest {
  anomaly_data : list Row;
  numeric_columns : option (list string)
}.

(** [a or b] on an optional list: [None] and [[]] are both false. *)
Definition py_or (a : option (list string)) (b : list string) : list string :=
  match a with
  | Some (c :: cs) => c :: cs
  | _ => b
  end.

(** [df[numeric_cols]]: a label that is not a column raises. *)
Definition select_columns (df : DataFrame) (cols : list string)
  : Exc (list (string * Column)) :=
  mapM (fun k => match get_column df k with
                 | Some c => Ok (k, c)
                 | None => Raise KeyError
                 end) cols.

Fixpoint zip_with {A B C : Type} (f : A -> B -> C) (l1 : list A) (l2 : list B) : list C :=
  match l1, l2 with
  | a :: l1', b :: l2' => f a b :: zip_with f l1' l2'
  | _, _ => []
  end.

(** The rows without a missing cell in any of the columns. *)
Definition complete_rows (idx : list nat) (cols : list (string * Column)) : list bool :=
  fold_left (fun keep kc => zip_with andb keep (map negb (isna (snd kc))))
            cols (map (fun _ => true) idx).

(** [DataFrame.dropna()]: the surviving rows keep their labels. *)
Definition dropna (df : DataFrame) : DataFrame :=
  let keep := complete_rows (index df) (columns df) in
  {| index := mask_select (index df) keep;
     columns := map (fun kc => (fst kc, take_rows keep (snd kc))) (columns df) |}.

Definition epsilon : Q := 1 # 1000000000.

(** [abs((x - mean) / (std + 1e-9)) > 3] with [std] the square root of
    [var], decided without the root: [abs(x - mean)/3 - 1e-9 > std]. *)
Definition zscore_exceeds (x m var : Q) : bool :=
  let t := (Qabs (x - m) / 3 - epsilon)%Q in
  Qltb 0 t && Qltb var (sq t).

Definition column_flags (v : list Q) : list bool :=
  map (fun x => zscore_exceeds x (mean v) (variance v)) v.

(** [(np.abs(z) > 3).any(axis=1)] *)
Definition zscore_mask (X : DataFrame) : Exc (list bool) :=
  flags <- mapM (fun kc => v <- as_float (snd kc) ;;
                           Ok (column_flags (dropna_values v))) (columns X) ;;
  Ok (fold_left (zip_with orb) flags (map (fun _ => false) (index X))).

(** The body of the [except] clause. *)
Definition zscore_fallback (X : DataFrame) : Exc (list nat) :=
  mask <- zscore_mask X ;;
  Ok (mask_select (index X) mask).

(** The body of the [try] clause; a mask of the wrong length raises. *)
Definition isolation_forest (env : Env) (X : DataFrame) : Exc (list nat) :=
  match IsolationForest env with
  | None => Raise RuntimeError
  | Some model =>
      pred <- model X ;;
      if (List.length pred =? List.length (index X))%nat
      then Ok (mask_select (index X) (map (Z.eqb (-1)) pred))
      else Raise IndexError
  end.

Definition anomaly (env : Env) (req : AnomalyRequest) : Exc (list nat) :=
  let df := _coerce_dataframe env (anomaly_data req) in
  if empty df then Ok []
  else
    let numeric_cols := py_or (numeric_columns req) (select_dtypes is_numeric df) in
    match numeric_cols with
    | [] => Ok []
    | _ =>
        sel <- select_columns df numeric_cols ;;
        let X := dropna {| index := index df; columns := sel |} in
        if empty X then Ok []
        else try_except (isolation_forest env X) (fun _ => zscore_fallback X)
    end.

(** ** A runtime without the optional packages *)

(** Neither [statsmodels] nor [sklearn] is installed, so both handlers take
    their fallback.  The text parsers accept nothing; they are not
    consulted on records without text cells. *)
Definition bare_env : Env :=
  {| parse_float := fun _ => None;
     parse_datetime := fun _ => None;
     infer_freq := fun _ => None;
     asfreq := fun _ ts => Ok (map (fun p => Some (snd p)) ts);
     sm := None;
     IsolationForest := None |}.

(** A runtime whose time-series model is a stand-in that projects the last
    observation for the requested number of steps. *)
Definition persistence_env : Env :=
  {| parse_float := fun _ => None;
     parse_datetime := fun _ => None;
     infer_freq := fun _ => None;
     asfreq := fun _ ts => Ok (map (fun p => Some (snd p)) ts);
     sm := Some (fun ts n => Ok (repeat (last ts None) n));
     IsolationForest := None |}.

Definition num (n : Z) : Raw := RNum (inject_Z n).

(** * Scenario inputs *)

(** [[{"x":1,"x2":2},{"x":2,"x2":4},{"x":3,"x2":6},{"x":4,"x2":8}]] *)
Definition doubled_rows : list Row :=
  [ [("x", num 1); ("x2", num 2)]; [("x", num 2); ("x2", num 4)];
    [("x", num 3); ("x2", num 6)]; [("x", num 4); ("x2", num 8)] ].

(** One column ["v"] holding the given numbers. *)
Definition rows_v (l : list Z) : list Row := map (fun z => [("v", num z)]) l.

(** [[{"v":1},{"v":2},{"v":3},{"v":100}]], columns [["v"]] *)
Definition small_sample : AnomalyRequest :=
  {| anomaly_data := rows_v [1; 2; 3; 100]%Z; numeric_columns := Some ["v"] |}.

(** The column [[1,2,3,2,1,2,3,500]], columns [["v"]] *)
Definition wide_outlier : AnomalyRequest :=
  {| anomaly_data := rows_v [1; 2; 3; 2; 1; 2; 3; 500]%Z; numeric_columns := Some ["v"] |}.

(** Ten zeros and one 100, with an explicitly empty column list. *)
Definition empty_selection : AnomalyRequest :=
  {| anomaly_data := rows_v [0; 0; 0; 0; 0; 0; 0; 0; 0; 0; 100]%Z;
     numeric_columns := Some [] |}.

(** A first row without a value, ten zeros and one 100. *)
Definition gap_then_outlier : AnomalyRequest :=
  {| anomaly_data := [("v", RNull)] :: rows_v [0; 0; 0; 0; 0; 0; 0; 0; 0; 0; 100]%Z;
     numeric_columns := None |}.

(** [[{"y": null}]] with target ["y"] *)
Definition all_missing_target : ForecastRequest :=
  {| forecast_data := [[("y", RNull)]]; date_column := None; target_column := "y" |}.

(** [[{"v": 1}]] with columns [["w"]] *)
Definition unknown_column : AnomalyRequest :=
  {| anomaly_data := rows_v [1]%Z; numeric_columns := Some ["w"] |}.

(** Nine points [1..9] on the positional axis. *)
Definition nine_points : ForecastRequest :=
  {| forecast_data := rows_v [1; 2; 3; 4; 5; 6; 7; 8; 9]%Z;
     date_column := None; target_column := "v" |}.

(** A typed table with two timestamps on its time axis. *)
Definition two_dates_table : DataFrame :=
  {| index := seq 0 2;
     columns := [ ("d", ColTime [Some 0%Z; Some 86400%Z]);
                  ("y", ColNum [Some 1%Q; Some 2%Q]) ] |}.

(** One text column that is neither numeric nor a date for [bare_env]. *)
Definition text_only : AnomalyRequest :=
  {| anomaly_data := [[("s", RStr "a")]; [("s", RStr "b")]]; numeric_columns := Some [] |}.

(** * Notions used by the statements *)







(** [res.forecast(steps=n)] returns [n] values. *)
Definition arima_contract (env : Env) : Prop :=
  forall arima ts n fc,
    sm env = Some arima -> arima ts n = Ok fc -> List.length fc = n.

(** A request is non-degenerate when its series of observations can be
    built and holds at least one observation. *)
Definition non_degenerate (env : Env) (req : ForecastRequest) : Prop :=
  exists ts,
    build_series env (_coerce_dataframe env (forecast_data req))
                 (date_column req) (target_column req) = Ok ts
    /\ ts <> [].

(** The fallback in the words of the specification: the window is
    [point_count / 4] clamped to [2..5], and 2 below two points. *)
Definition clamp (lo hi x : nat) : nat := Nat.max lo (Nat.min hi x).

Definition spec_window (n : nat) : nat :=
  if (n <? 2)%nat then 2%nat else clamp 2 5 (n / 4).

(** The runs of [w] consecutive observations, oldest first. *)
Fixpoint sliding {A : Type} (w : nat) (l : list A) : list (list A) :=
  match l with
  | [] => []
  | _ :: l' => if (w <=? List.length l)%nat then firstn w l :: sliding w l' else []
  end.

(** The simple moving average: the mean of every run without a gap. *)
Definition simple_moving_average (w : nat) (ts : list (option Q)) : list Q :=
  dropna_values (map window_mean (sliding w ts)).

(** The value the specification projects: the last moving-average value,
    else the last raw observation; [None] when the series has neither. *)
Definition spec_projection (ts : list (option Q)) : option (option Q) :=
  match rev (simple_moving_average (spec_window (List.length ts)) ts) with
  | m :: _ => Some (Some m)
  | [] => match rev ts with
          | x :: _ => Some x
          | [] => None
          end
  end.

(** The z-score of the source over the reals. *)
Definition z_score (x : Q) (v : list Q) : R :=
  ((Q2R x - Q2R (mean v)) / (sqrt (Q2R (variance v)) + Q2R epsilon))%R.

(** The absolute Pearson coefficient of the source over the reals, from
    the sum of cross deviations and the two sums of squared deviations. *)
Definition abs_pearson (cov sx sy : Q) : R :=
  Rabs (Q2R cov / sqrt (Q2R (sx * sy))).

(** The cells of a float column. *)
Definition float_cells (c : Column) : list (option Q) :=
  match c with
  | ColNum v => v
  | _ => []
  end.

(** A working subset: complete float columns over the labels [idx]. *)
Definition numeric_frame (idx : list nat) (cols : list (string * list Q)) : DataFrame :=
  {| index := idx;
     columns := map (fun kc => (fst kc, ColNum (map Some (snd kc)))) cols |}.



(** A table with a time column and a value column; one row lacks a value. *)
Definition trend_table : DataFrame :=
  {| index := seq 0 5;
     columns :=
       [ ("when", ColTime [Some 40%Z; Some 10%Z; Some 30%Z; Some 20%Z; Some 50%Z]);
         ("amount", ColNum [Some 8%Q; Some 2%Q; None; Some 3%Q; Some 5%Q]) ] |}.

(** The number of cells of a column. *)
Definition col_length (c : Column) : nat :=
  match c with
  | ColNum v => List.length v
  | ColTime v => List.length v
  | ColBool v => List.length v
  | ColObj v => List.length v
  end.

(** Some record of the request has the key [k]. *)
Definition key_occurs (data : list Row) (k : string) : Prop :=
  exists r, In r data /\ In k (map fst r).

(** The place of a finding in the generation order of [insights]. *)
Definition insight_rank (i : Insight) : nat :=
  match i with
  | Summary _ _ _ _ _ _ => 0
  | Trend _ _ => 1
  | Correlation _ _ _ => 2
  | Outliers _ _ => 3
  end.

(** The response of [forecast] when the table is empty or lacks the target. *)
Definition missing_target_response : ForecastResult :=
  {| message := Some "No data or missing target.";
     forecast_values := []; steps := None |}.

(** Strictly increasing row labels. *)
Definition increasing (ids : list nat) : Prop := StronglySorted lt ids.

(** Two columns that are related, but not perfectly. *)
Definition loosely_related_rows : list Row :=
  [ [("x", num 1); ("y", num 1)]; [("x", num 2); ("y", num 3)];
    [("x", num 3); ("y", num 2)]; [("x", num 4); ("y", num 5)] ].

(** ** A runtime that reads ISO dates *)

Definition digit (c : ascii) : option Z :=
  let n := nat_of_ascii c in
  if (48 <=? n)%nat && (n <=? 57)%nat then Some (Z.of_nat (n - 48)) else None.

Definition two_digits (a b : ascii) : option Z :=
  match digit a, digit b with
  | Some x, Some y => Some (10 * x + y)%Z
  | _, _ => None
  end.

(** Days since 1970-01-01 of a proleptic Gregorian date. *)
Definition days_from_civil (y m d : Z) : Z :=
  let y := if (m <=? 2)%Z then (y - 1)%Z else y in
  let era := (y / 400)%Z in
  let yoe := (y - era * 400)%Z in
  let mp := ((m + 9) mod 12)%Z in
  let doy := ((153 * mp + 2) / 5 + d - 1)%Z in
  let doe := (yoe * 365 + yoe / 4 - yoe / 100 + doy)%Z in
  (era * 146097 + doe - 719468)%Z.

(** ["YYYY-MM-DD"] as nanoseconds since the epoch. *)
Definition iso_date (s : string) : option Z :=
  match s with
  | String y1 (String y2 (String y3 (String y4 (String "-"
      (String m1 (String m2 (String "-" (String d1 (String d2 EmptyString))))))))) =>
      match two_digits y1 y2, two_digits y3 y4, two_digits m1 m2, two_digits d1 d2 with
      | Some hi, Some lo, Some m, Some d =>
          if (1 <=? m)%Z && (m <=? 12)%Z && (1 <=? d)%Z && (d <=? 31)%Z
          then Some (days_from_civil (100 * hi + lo) m d * 86400000000000)%Z
          else None
      | _, _, _, _ => None
      end
  | _ => None
  end.

(** A stand-in runtime without the optional packages whose timestamp parser
    reads ISO dates and nothing else. *)
Definition iso_env : Env :=
  {| parse_float := fun _ => None;
     parse_datetime := fun r => match r with RStr s => iso_date s | _ => None end;
     infer_freq := fun _ => None;
     asfreq := fun _ ts => Ok (map (fun p => Some (snd p)) ts);
     sm := None;
     IsolationForest := None |}.

(** Two dated observations. *)
Definition two_dated_points : ForecastRequest :=
  {| forecast_data := [ [("d", RStr "2024-01-01"); ("y", num 1)];
                        [("d", RStr "2024-01-02"); ("y", num 2)] ];
     date_column := None; target_column := "y" |}.

(** Two records, each lacking one of the two values. *)
Definition gappy_rows : AnomalyRequest :=
  {| anomaly_data := [ [("v", RNull); ("w", num 1)]; [("v", num 2); ("w", RNull)] ];
     numeric_columns := None |}.


(** * Properties *)

(** ** Empty input to [insights] *)

(** C10: on zero records [insights] returns only an empty insight list;
    [row_count] and [column_count] are absent, not zero.  They are set
    exactly when the coerced table is not empty. *)
Theorem insights_empty_input_has_no_counts :
  (forall env, insights env [] =
     {| insights_list := []; row_count := None; column_count := None |})
  /\ (forall env data,
        row_count (insights env data) =
          (if empty (_coerce_dataframe env data) then None
           else Some (List.length data))
        /\ column_count (insights env data) =
          (if empty (_coerce_dataframe env data) then None
           else Some (List.length (column_names data)))).
Proof.
  split.
  - intros env. reflexivity.
  - intros env data. unfold insights.
    destruct (empty (_coerce_dataframe env data)); simpl.
    + split; reflexivity.
    + rewrite length_seq, !length_map. split; reflexivity.
Qed.

(** ** The correlation scenario *)

(** C2, as the code behaves: on the doubled-column rows [insights] reports
    the summaries of [x] and [x2] and nothing else; the pairs of the
    correlation matrix all have [|r| = 1] and are removed by the
    [corr < 0.999] filter, so no correlation is reported. *)
Theorem insights_doubled_rows :
  forall env,
    insights env doubled_rows =
      {| insights_list :=
           [ Summary "x" (5 # 2) (5 # 2) (5 # 4) 1 4;
             Summary "x2" 5 5 5 2 8 ];
         row_count := Some 4%nat;
         column_count := Some 2%nat |}
    /\ forallb (fun e => match snd e with
                          | Some r_sq => Qeq_bool r_sq 1
                          | None => false
                          end)
         (corr_entries (_coerce_dataframe env doubled_rows) ["x"; "x2"]) = true
    /\ filter below_threshold
         (corr_entries (_coerce_dataframe env doubled_rows) ["x"; "x2"]) = []
    /\ correlation (_coerce_dataframe env doubled_rows) ["x"; "x2"] = [].
Proof.
  intros env. repeat split; vm_compute; reflexivity.
Qed.

(** C2 as stated fails: no correlation insight is reported for the
    doubled-column rows. *)
Lemma doubled_rows_report_no_correlation :
  ~ (exists a b v,
       In (Correlation a b v) (insights_list (insights bare_env doubled_rows))).
Proof.
  intros (a & b & v & H).
  vm_compute in H.
  destruct H as [H | [H | []]]; discriminate H.
Qed.

(** ** Empty table and empty selection in [anomaly] *)

Lemma py_or_nil (a : option (list string)) (b : list string) :
  py_or a b = [] <-> (a = None \/ a = Some []) /\ b = [].
Proof.
  destruct a as [[|c cs]|]; simpl; split; intros H.
  - split; [right; reflexivity | exact H].
  - apply H.
  - discriminate H.
  - destruct H as [[H | H] _]; discriminate H.
  - split; [left; reflexivity | exact H].
  - apply H.
Qed.

(** C3, as the code behaves: [anomaly] returns the empty result when the
    coerced table is empty, and when no column list or an empty one is
    given while the table has no numeric column.  An empty list counts as
    no list: it selects all numeric columns. *)
Theorem anomaly_empty_table_or_selection :
  forall env req,
    empty (_coerce_dataframe env (anomaly_data req)) = true
    \/ ((numeric_columns req = None \/ numeric_columns req = Some [])
        /\ select_dtypes is_numeric (_coerce_dataframe env (anomaly_data req)) = []) ->
    anomaly env req = Ok []
    /\ py_or (Some []) (select_dtypes is_numeric (_coerce_dataframe env (anomaly_data req)))
       = select_dtypes is_numeric (_coerce_dataframe env (anomaly_data req)).
Proof.
  intros env req H. split; [|reflexivity].
  unfold anomaly.
  destruct (empty (_coerce_dataframe env (anomaly_data req))) eqn:E; [reflexivity|].
  destruct H as [H | H]; [discriminate H|].
  apply py_or_nil in H. rewrite H. reflexivity.
Qed.

Lemma anomaly_empty_table_or_selection_witness :
  numeric_columns text_only = Some []
  /\ select_dtypes is_numeric (_coerce_dataframe bare_env (anomaly_data text_only)) = []
  /\ anomaly bare_env text_only = Ok [].
Proof.
  split; [reflexivity|]. split; [reflexivity|].
  apply (anomaly_empty_table_or_selection bare_env text_only).
  right. split; [right; reflexivity | reflexivity].
Defined.

(** C3 as stated fails: with an explicitly empty column list the handler
    falls back to all numeric columns and reports row 10. *)
Lemma explicit_empty_selection_reports_anomaly :
  numeric_columns empty_selection = Some []
  /\ anomaly bare_env empty_selection = Ok [10%nat].
Proof.
  split; [reflexivity|]. vm_compute. reflexivity.
Qed.

(** ** Exceptions that escape the handlers *)

(** C1: evaluation at inputs where an exception leaves the handler.  A
    target column without any value reaches [ts.iloc[-1]] on an empty
    series inside the [except] clause; a column list naming a label the
    table does not have fails at [df[numeric_cols]], outside the [try];
    and on a table with two timestamps the series construction, which is
    outside the [try] as well, fails in [pd.infer_freq]. *)
Theorem handlers_let_exceptions_escape :
  (forall env, forecast env all_missing_target = Raise IndexError)
  /\ (forall env, anomaly env unknown_column = Raise KeyError)
  /\ (forall env, build_series env two_dates_table None "y" = Raise ValueError).
Proof.
  repeat split; intros [pf pd inf asf [arima|] forest]; vm_compute; reflexivity.
Qed.

(** ** Schema inference *)

Section MapM.
Context {A : Type} (f : Raw -> option (option A)).


End MapM.











(** ** The forecast horizon *)

Lemma column_names_nil : column_names [] = [].
Proof. reflexivity. Qed.

Lemma has_column_not_empty env data k :
  has_column (_coerce_dataframe env data) k = true ->
  empty (_coerce_dataframe env data) = false.
Proof.
  destruct data as [|r data].
  - discriminate.
  - unfold has_column, empty. simpl index.
    destruct (columns (_coerce_dataframe env (r :: data))); [discriminate | reflexivity].
Qed.

Lemma rev_nil_inv {A : Type} (l : list A) : rev l = [] -> l = [].
Proof.
  intros H. rewrite <- (rev_involutive l), H. reflexivity.
Qed.

Lemma fallback_on_observations (ts : list (option Q)) :
  ts <> [] -> exists v, moving_average_fallback ts = Ok (repeat v 12).
Proof.
  intros Hne. unfold moving_average_fallback.
  destruct (rev (dropna_values (rolling_mean (window_size (List.length ts)) ts)))
    as [|m ma].
  - unfold iloc_last. destruct (rev ts) as [|x r] eqn:E.
    + contradiction Hne. apply rev_nil_inv, E.
    + exists x. reflexivity.
  - exists (Some m). reflexivity.
Qed.

Lemma dropna_values_In {A : Type} (v : list (option A)) (a : A) :
  In (Some a) v -> In a (dropna_values v).
Proof.
  induction v as [|[b|] v IH]; simpl; intros H.
  - contradiction.
  - destruct H as [H | H]; [left; congruence | right; apply IH, H].
  - destruct H as [H | H]; [discriminate H | apply IH, H].
Qed.

(** A request on the positional axis is non-degenerate as soon as its
    target is a float column with one value. *)
Lemma positional_series_non_degenerate env req v q :
  date_column req = None ->
  select_dtypes is_datetime (_coerce_dataframe env (forecast_data req)) = [] ->
  get_column (_coerce_dataframe env (forecast_data req)) (target_column req)
    = Some (ColNum v) ->
  In (Some q) v ->
  non_degenerate env req.
Proof.
  intros Hd Hdt Hcol Hin.
  exists (map Some (dropna_values v)). split.
  - unfold build_series, resolve_dt_col. rewrite Hd, Hdt. simpl.
    unfold index_series, target_floats. rewrite Hcol. reflexivity.
  - apply dropna_values_In in Hin. destruct (dropna_values v); [contradiction|].
    discriminate.
Qed.

(** C5: when the target column is present and the series of observations
    can be built and is not empty, [forecast] answers with exactly twelve
    values and [steps = 12], whichever of the two strategies produced
    them. *)
Theorem forecast_has_twelve_steps :
  forall env req,
    arima_contract env ->
    has_column (_coerce_dataframe env (forecast_data req)) (target_column req) = true ->
    non_degenerate env req ->
    exists fv,
      forecast env req = Ok {| message := None; forecast_values := fv;
                               steps := Some 12%nat |}
      /\ List.length fv = 12%nat.
Proof.
  intros env req Harima Htarget (ts & Hts & Hne).
  unfold forecast.
  rewrite (has_column_not_empty _ _ _ Htarget), Htarget. simpl.
  rewrite Hts. simpl.
  unfold predict, arima_forecast.
  destruct (sm env) as [arima|] eqn:Esm.
  - destruct (8 <=? List.length ts)%nat.
    + destruct (arima ts 12%nat) as [fc|e] eqn:Efc; simpl.
      * exists fc. split; [reflexivity|]. apply (Harima arima ts 12%nat fc Esm Efc).
      * destruct (fallback_on_observations ts Hne) as [v ->]. simpl.
        exists (repeat v 12). split; reflexivity.
    + simpl. destruct (fallback_on_observations ts Hne) as [v ->]. simpl.
      exists (repeat v 12). split; reflexivity.
  - simpl. destruct (fallback_on_observations ts Hne) as [v ->]. simpl.
    exists (repeat v 12). split; reflexivity.
Qed.

Lemma forecast_has_twelve_steps_witness :
  arima_contract persistence_env
  /\ exists fv,
       forecast persistence_env nine_points
       = Ok {| message := None; forecast_values := fv; steps := Some 12%nat |}
       /\ List.length fv = 12%nat.
Proof.
  assert (Hc : arima_contract persistence_env).
  { intros arima ts n fc Hsm Hfc. injection Hsm as <-. injection Hfc as <-.
    apply repeat_length. }
  split; [exact Hc|].
  apply (forecast_has_twelve_steps persistence_env nine_points Hc).
  - reflexivity.
  - eexists. split; [vm_compute; reflexivity | discriminate].
Defined.

(** On nine points the stand-in model answers. *)
Example nine_points_use_the_model :
  forecast persistence_env nine_points
  = Ok {| message := None; forecast_values := repeat (Some (inject_Z 9)) 12;
          steps := Some 12%nat |}.
Proof. reflexivity. Qed.


(** ** The moving-average fallback *)

Lemma window_size_is_clamp (n : nat) : window_size n = spec_window n.
Proof.
  unfold window_size, spec_window, clamp.
  destruct (2 <=? n)%nat eqn:E1; destruct (n <? 2)%nat eqn:E2;
    try reflexivity.
  - apply Nat.leb_le in E1. apply Nat.ltb_lt in E2. lia.
  - lia.
  - apply Nat.leb_gt in E1. apply Nat.ltb_ge in E2. lia.
Qed.

Lemma window_size_positive (n : nat) : (1 <= window_size n)%nat.
Proof.
  unfold window_size. destruct (2 <=? n)%nat; lia.
Qed.

Lemma dropna_values_app {A : Type} (l1 l2 : list (option A)) :
  dropna_values (l1 ++ l2) = dropna_values l1 ++ dropna_values l2.
Proof.
  induction l1 as [|[a|] l1 IH]; simpl; [reflexivity | rewrite IH; reflexivity | exact IH].
Qed.

Lemma dropna_values_all_nan {A : Type} (g : nat -> option A) (l : list nat) :
  (forall i, In i l -> g i = None) -> dropna_values (map g l) = [].
Proof.
  induction l as [|i l IH]; simpl; intros H; [reflexivity|].
  rewrite (H i (or_introl eq_refl)). apply IH. intros j Hj. apply H. right. exact Hj.
Qed.

Lemma map_seq_shift {A : Type} (g : nat -> A) (a s k : nat) :
  map g (seq (a + s) k) = map (fun j => g (a + j)%nat) (seq s k).
Proof.
  revert s. induction k as [|k IH]; intros s; simpl; [reflexivity|].
  f_equal. rewrite <- IH. f_equal. f_equal. lia.
Qed.

(** The runs of [sliding] are the windows that start at each position. *)
Lemma sliding_windows {A : Type} (w : nat) (l : list A) :
  (1 <= w)%nat ->
  sliding w l = map (fun j => firstn w (skipn j l)) (seq 0 (S (List.length l) - w)).
Proof.
  intros Hw. induction l as [|a l IH].
  - cbn [sliding List.length]. replace (1 - w)%nat with 0%nat by lia. reflexivity.
  - cbn [sliding]. destruct (w <=? List.length (a :: l))%nat eqn:E.
    + apply Nat.leb_le in E. simpl List.length in *.
      replace (S (S (List.length l)) - w)%nat with (S (S (List.length l) - w)) by lia.
      cbn [seq map]. f_equal.
      rewrite IH. rewrite (map_seq_shift _ 1 0). reflexivity.
    + apply Nat.leb_gt in E. simpl List.length in *.
      replace (S (S (List.length l)) - w)%nat with 0%nat by lia. reflexivity.
Qed.

(** [rolling(window).mean().dropna()] is the simple moving average. *)
Lemma rolling_mean_is_moving_average (w : nat) (ts : list (option Q)) :
  (1 <= w)%nat ->
  dropna_values (rolling_mean w ts) = simple_moving_average w ts.
Proof.
  intros Hw. unfold simple_moving_average, rolling_mean.
  rewrite (sliding_windows w ts Hw), map_map.
  set (n := List.length ts).
  destruct (Nat.le_gt_cases w n) as [Hle | Hgt].
  - replace n with ((w - 1) + (S n - w))%nat at 1 by lia.
    rewrite seq_app, map_app, dropna_values_app.
    rewrite dropna_values_all_nan.
    + replace (seq (0 + (w - 1)) (S n - w)) with (seq ((w - 1) + 0) (S n - w))
        by (f_equal; lia).
      rewrite (map_seq_shift _ (w - 1) 0). cbn [app].
      f_equal. apply map_ext. intros j.
      replace (w <=? S (w - 1 + j))%nat with true
        by (symmetry; apply Nat.leb_le; lia).
      replace (S (w - 1 + j) - w)%nat with j by lia. reflexivity.
    + intros i Hi. apply in_seq in Hi.
      replace (w <=? S i)%nat with false
        by (symmetry; apply Nat.leb_gt; lia).
      reflexivity.
  - replace (S n - w)%nat with 0%nat by lia. simpl.
    apply dropna_values_all_nan. intros i Hi. apply in_seq in Hi.
    replace (w <=? S i)%nat with false
      by (symmetry; apply Nat.leb_gt; lia).
    reflexivity.
Qed.

Lemma fallback_is_spec_projection (ts : list (option Q)) :
  moving_average_fallback ts =
    match spec_projection ts with
    | Some v => Ok (repeat v 12)
    | None => Raise IndexError
    end.
Proof.
  unfold moving_average_fallback, spec_projection.
  rewrite (rolling_mean_is_moving_average _ ts (window_size_positive _)).
  rewrite window_size_is_clamp.
  destruct (rev (simple_moving_average (spec_window (List.length ts)) ts)) as [|m ma].
  - unfold iloc_last. destruct (rev ts); reflexivity.
  - reflexivity.
Qed.

(** C6: when [statsmodels] is missing, the series has fewer than eight
    points, or the fit raises, the forecast is the moving-average
    projection of the specification: the window is [len / 4] clamped to
    [2..5] (2 below two points), and the last moving-average value, else
    the last raw observation, is repeated twelve times.  Below eight
    points the primary model is not called. *)
Theorem fallback_is_moving_average_projection :
  forall env ts,
    sm env = None
    \/ (List.length ts < 8)%nat
    \/ (exists arima e, sm env = Some arima /\ arima ts 12%nat = Raise e) ->
    window_size (List.length ts) = spec_window (List.length ts)
    /\ dropna_values (rolling_mean (window_size (List.length ts)) ts)
       = simple_moving_average (spec_window (List.length ts)) ts
    /\ predict env ts = match spec_projection ts with
                        | Some v => Ok (repeat v 12)
                        | None => Raise IndexError
                        end
    /\ (ts <> [] -> spec_projection ts <> None)
    /\ ((List.length ts < 8)%nat -> arima_forecast env ts = Raise RuntimeError).
Proof.
  intros env ts H.
  split; [apply window_size_is_clamp|].
  split.
  { rewrite <- window_size_is_clamp.
    apply rolling_mean_is_moving_average, window_size_positive. }
  split; [|split].
  - unfold predict.
    assert (Hr : exists e, arima_forecast env ts = Raise e).
    { unfold arima_forecast.
      destruct H as [H | [H | (arima & e & H1 & H2)]].
      - rewrite H. eexists; reflexivity.
      - destruct (sm env); [|eexists; reflexivity].
        replace (8 <=? List.length ts)%nat with false
          by (symmetry; apply Nat.leb_gt; exact H).
        eexists; reflexivity.
      - rewrite H1. destruct (8 <=? List.length ts)%nat; [|eexists; reflexivity].
        exists e. exact H2. }
    destruct Hr as [e ->]. simpl. apply fallback_is_spec_projection.
  - intros Hne. unfold spec_projection.
    destruct (rev (simple_moving_average (spec_window (List.length ts)) ts));
      [|discriminate].
    destruct (rev ts) eqn:E; [|discriminate].
    contradiction Hne. apply rev_nil_inv, E.
  - intros Hlt. unfold arima_forecast.
    destruct (sm env); [|reflexivity].
    replace (8 <=? List.length ts)%nat with false
      by (symmetry; apply Nat.leb_gt; exact Hlt).
    reflexivity.
Qed.

Lemma fallback_is_moving_average_projection_witness :
  sm bare_env = None
  /\ predict bare_env [Some 1%Q; Some 2%Q; Some 6%Q] = Ok (repeat (Some (8 # 2)%Q) 12).
Proof.
  split; [reflexivity|].
  pose proof (fallback_is_moving_average_projection bare_env
                [Some 1%Q; Some 2%Q; Some 6%Q]) as H.
  destruct H as (_ & _ & H & _); [left; reflexivity | exact H].
Defined.

(** ** Row labels returned by [anomaly] *)

Lemma mask_select_incl {A : Type} (l : list A) (mask : list bool) (a : A) :
  In a (mask_select l mask) -> In a l.
Proof.
  revert mask. induction l as [|x l IH]; intros [|b mask] H; simpl in *;
    try contradiction.
  destruct b.
  - destruct H as [H | H]; [left; exact H | right; apply (IH mask H)].
  - right. apply (IH mask H).
Qed.

Lemma mask_select_seq (s n : nat) (keep : list bool) (i : nat) :
  In i (mask_select (seq s n) keep) ->
  (s <= i < s + n)%nat /\ nth (i - s) keep false = true.
Proof.
  revert s keep. induction n as [|n IH]; intros s [|b keep] H; simpl in *;
    try contradiction.
  assert (Hrec : In i (mask_select (seq (S s) n) keep) ->
                 (s <= i < s + S n)%nat /\ nth (i - s) (b :: keep) false = true).
  { intros H'. destruct (IH _ _ H') as [Hr Hk]. split; [lia|].
    replace (i - s)%nat with (S (i - S s)) by lia. exact Hk. }
  destruct b.
  - destruct H as [H | H]; [|apply Hrec, H].
    subst i. split; [lia|]. rewrite Nat.sub_diag. reflexivity.
  - apply Hrec, H.
Qed.

Lemma nth_zip_with_andb (l1 l2 : list bool) (i : nat) :
  nth i (zip_with andb l1 l2) false = true ->
  nth i l1 false = true /\ nth i l2 false = true.
Proof.
  revert l2 i. induction l1 as [|a l1 IH]; intros [|b l2] [|i] H; simpl in *;
    try discriminate H.
  - apply andb_true_iff, H.
  - apply IH, H.
Qed.

Lemma nth_negb_present (l : list bool) (i : nat) :
  nth i (map negb l) false = true -> nth i l true = false.
Proof.
  revert i. induction l as [|a l IH]; intros [|i] H; simpl in *;
    try discriminate H.
  - destruct a; [discriminate H | reflexivity].
  - apply IH, H.
Qed.

(** A row kept by [dropna] has a value in every selected column. *)
Lemma complete_rows_present (cols : list (string * Column)) (idx : list nat) (i : nat) :
  nth i (complete_rows idx cols) false = true ->
  forall kc, In kc cols -> nth i (isna (snd kc)) true = false.
Proof.
  unfold complete_rows. generalize (map (fun _ : nat => true) idx) as keep.
  induction cols as [|c cols IH]; intros keep H kc Hin; simpl in *.
  - contradiction.
  - destruct Hin as [<- | Hin].
    + clear IH. revert keep H.
      assert (G : forall cs keep,
                 nth i (fold_left
                          (fun keep (kc : string * Column) =>
                             zip_with andb keep (map negb (isna (snd kc))))
                          cs keep) false = true -> nth i keep false = true).
      { induction cs as [|c' cs IHcs]; intros keep H; simpl in H; [exact H|].
        apply IHcs in H. apply nth_zip_with_andb in H. apply H. }
      intros keep H. apply G in H. apply nth_zip_with_andb in H.
      apply nth_negb_present, H.
    + apply (IH _ H kc Hin).
Qed.

(** Either strategy answers with labels selected from [X.index]. *)
Lemma detector_selects_labels (env : Env) (X : DataFrame) (ids : list nat) :
  try_except (isolation_forest env X) (fun _ => zscore_fallback X) = Ok ids ->
  exists mask, ids = mask_select (index X) mask.
Proof.
  assert (F : forall r, zscore_fallback X = Ok r ->
                        exists mask, r = mask_select (index X) mask).
  { unfold zscore_fallback. intros r H.
    destruct (zscore_mask X) as [mask|e]; simpl in H; [|discriminate H].
    exists mask. congruence. }
  unfold isolation_forest.
  destruct (IsolationForest env) as [model|]; simpl; [|apply F].
  destruct (model X) as [pred|e]; simpl; [|apply F].
  destruct (List.length pred =? List.length (index X))%nat; simpl; [|apply F].
  intros H. exists (map (Z.eqb (-1)) pred). congruence.
Qed.

(** C9: every identifier that [anomaly] returns, from the isolation
    forest or from the z-score fallback, is the position of a record of
    the request, and that record has a value in every selected column: the
    identifiers are the labels kept through [dropna], not positions in the
    working subset. *)
Theorem anomaly_ids_are_input_positions :
  forall env req ids,
    anomaly env req = Ok ids ->
    forall i, In i ids ->
      (i < List.length (anomaly_data req))%nat
      /\ exists sel,
           select_columns (_coerce_dataframe env (anomaly_data req))
             (py_or (numeric_columns req)
                    (select_dtypes is_numeric (_coerce_dataframe env (anomaly_data req))))
           = Ok sel
           /\ forall kc, In kc sel -> nth i (isna (snd kc)) true = false.
Proof.
  intros env req ids H i Hi. unfold anomaly in H.
  set (df := _coerce_dataframe env (anomaly_data req)) in *.
  destruct (empty df); cbv iota in H; [injection H as <-; contradiction|].
  destruct (py_or (numeric_columns req) (select_dtypes is_numeric df)) as [|c cs] eqn:Ecols;
    cbv iota in H; [injection H as <-; contradiction|].
  destruct (select_columns df (c :: cs)) as [sel|e]; unfold bind in H;
    [|discriminate H].
  destruct (empty (dropna {| index := index df; columns := sel |}));
    [injection H as <-; contradiction|].
  apply detector_selects_labels in H. destruct H as [mask ->].
  apply mask_select_incl in Hi. simpl in Hi.
  apply mask_select_seq in Hi. destruct Hi as [Hrange Hkeep].
  rewrite Nat.sub_0_r in Hkeep. split; [lia|].
  exists sel. split; [reflexivity|].
  apply (complete_rows_present sel _ i Hkeep).
Qed.

Lemma anomaly_ids_are_input_positions_witness :
  anomaly bare_env gap_then_outlier = Ok [11%nat]
  /\ (11 < List.length (anomaly_data gap_then_outlier))%nat.
Proof.
  assert (H : anomaly bare_env gap_then_outlier = Ok [11%nat])
    by (vm_compute; reflexivity).
  split; [exact H|].
  apply (anomaly_ids_are_input_positions bare_env gap_then_outlier [11%nat] H 11%nat).
  left. reflexivity.
Defined.

(** ** The trend step of [insights] *)

Section StableSort.
Context {B : Type}.




End StableSort.

(** With distinct labels, a label listed by [select_dtypes] names a column
    of the selected type. *)
Lemma select_dtypes_get_column (include : Column -> bool) (df : DataFrame) (k : string) :
  NoDup (map fst (columns df)) ->
  In k (select_dtypes include df) ->
  exists c, get_column df k = Some c /\ include c = true.
Proof.
  unfold select_dtypes, get_column. induction (columns df) as [|[k' c'] cols IH];
    simpl; intros Hnd Hin.
  - contradiction.
  - inversion Hnd as [|? ? Hnotin Hnd']; subst.
    destruct (String.eqb k' k) eqn:E.
    + apply String.eqb_eq in E. subst k'. simpl.
      destruct (include c') eqn:Ec.
      * exists c'. split; [reflexivity | exact Ec].
      * exfalso. apply Hnotin.
        apply in_map_iff in Hin. destruct Hin as [[k2 c2] [<- Hin]].
        apply filter_In in Hin. apply in_map_iff. exists (k2, c2). split; [reflexivity | apply Hin].
    + apply IH; [exact Hnd'|].
      destruct (include c'); [|exact Hin].
      destruct Hin as [Hin | Hin]; [|exact Hin].
      simpl in Hin. subst k'. rewrite String.eqb_refl in E. discriminate E.
Qed.



(** Times 10, 20, 40, 50 carry 2, 3, 8, 5: the change is 150 percent. *)
Example trend_table_change :
  trend trend_table (select_dtypes is_numeric trend_table) = [Trend "amount" 150].
Proof. reflexivity. Qed.

(** ** The z-score fallback *)

Lemma Qltb_lt (a b : Q) : Qltb a b = true <-> (a < b)%Q.
Proof.
  unfold Qltb. rewrite negb_true_iff. split; intros H.
  - apply Qnot_le_lt. intros Hle. apply Qle_bool_iff in Hle. congruence.
  - destruct (Qle_bool b a) eqn:E; [|reflexivity].
    apply Qle_bool_iff in E. exfalso. apply (Qlt_not_le _ _ H E).
Qed.

Lemma Q2R_Qabs (x : Q) : Q2R (Qabs x) = Rabs (Q2R x).
Proof.
  apply Qabs_case; intros H; apply Qle_Rle in H.
  - rewrite Rabs_pos_eq; [reflexivity|]. unfold Q2R at 1 in H. simpl in H. lra.
  - rewrite Q2R_opp, Rabs_left1; [reflexivity|]. unfold Q2R at 2 in H. simpl in H. lra.
Qed.

Lemma Q2R_epsilon_pos : (0 < Q2R epsilon)%R.
Proof.
  unfold epsilon, Q2R. simpl. lra.
Qed.

(** The test on squares decides the inequality of the source over the reals. *)
Lemma zscore_exceeds_real (x m var : Q) :
  (0 <= var)%Q ->
  zscore_exceeds x m var = true <->
  (Rabs ((Q2R x - Q2R m) / (sqrt (Q2R var) + Q2R epsilon)) > 3)%R.
Proof.
  intros Hvar. unfold zscore_exceeds.
  rewrite andb_true_iff, !Qltb_lt.
  set (t := (Qabs (x - m) / 3 - epsilon)%Q).
  assert (HT : Q2R t = (Rabs (Q2R x - Q2R m) / 3 - Q2R epsilon)%R).
  { unfold t. rewrite Q2R_minus, Q2R_div, Q2R_Qabs, Q2R_minus.
    - unfold Q2R at 3. simpl. lra.
    - discriminate. }
  assert (HV : (0 <= Q2R var)%R).
  { apply Qle_Rle in Hvar. unfold Q2R at 1 in Hvar. simpl in Hvar. lra. }
  pose proof Q2R_epsilon_pos as HE.
  pose proof (sqrt_pos (Q2R var)) as Hs.
  pose proof (sqrt_sqrt (Q2R var) HV) as Hss.
  set (s := sqrt (Q2R var)) in *.
  set (D := Rabs (Q2R x - Q2R m)) in *.
  assert (HP : (0 < s + Q2R epsilon)%R) by lra.
  assert (Habs : Rabs ((Q2R x - Q2R m) / (s + Q2R epsilon)) = (D / (s + Q2R epsilon))%R).
  { unfold Rdiv. rewrite Rabs_mult. rewrite (Rabs_pos_eq (/ _)); [reflexivity|].
    left. apply Rinv_0_lt_compat, HP. }
  rewrite Habs.
  assert (Hdiv : (D / (s + Q2R epsilon) > 3 <-> Q2R t > s)%R).
  { rewrite HT. split; intros H.
    - apply Rmult_lt_compat_r with (r := (s + Q2R epsilon)%R) in H; [|exact HP].
      unfold Rdiv in H. rewrite Rmult_assoc, Rinv_l in H; lra.
    - apply Rmult_lt_reg_r with (r := (s + Q2R epsilon)%R); [exact HP|].
      unfold Rdiv. rewrite Rmult_assoc, Rinv_l; lra. }
  rewrite Hdiv.
  split.
  - intros [H0 H1]. apply Qlt_Rlt in H0, H1.
    unfold sq in H1. rewrite Q2R_mult in H1.
    unfold Q2R at 1 in H0. simpl in H0.
    nra.
  - intros H. split.
    + apply Rlt_Qlt. unfold Q2R at 1. simpl. lra.
    + apply Rlt_Qlt. unfold sq. rewrite Q2R_mult. nra.
Qed.

Lemma sq_nonneg (x : Q) : (0 <= sq x)%Q.
Proof.
  destruct x as [n d]. unfold sq, Qle, Qmult. simpl. nia.
Qed.

Lemma Qsum_squares_nonneg (m : Q) (l : list Q) :
  (0 <= Qsum (map (fun x => sq (x - m)) l))%Q.
Proof.
  induction l as [|x l IH]; simpl.
  - apply Qle_refl.
  - replace 0%Q with (0 + 0)%Q by reflexivity.
    apply Qplus_le_compat; [apply sq_nonneg | exact IH].
Qed.

Lemma Qlen_nonneg {A : Type} (l : list A) : (0 <= Qlen l)%Q.
Proof.
  unfold Qlen, inject_Z, Qle. simpl. lia.
Qed.

Lemma variance_nonneg (v : list Q) : (0 <= variance v)%Q.
Proof.
  unfold variance, ssd, Qdiv.
  apply Qmult_le_0_compat.
  - apply Qsum_squares_nonneg.
  - apply Qinv_le_0_compat, Qlen_nonneg.
Qed.

Lemma dropna_values_present {A : Type} (v : list A) : dropna_values (map Some v) = v.
Proof.
  induction v as [|a v IH]; simpl; [reflexivity | rewrite IH; reflexivity].
Qed.

Lemma zscore_mask_numeric_frame (idx : list nat) (cols : list (string * list Q)) :
  zscore_mask (numeric_frame idx cols) =
    Ok (fold_left (zip_with orb) (map (fun c => column_flags (snd c)) cols)
                  (map (fun _ => false) idx)).
Proof.
  unfold zscore_mask, numeric_frame. simpl.
  assert (H : mapM (fun kc : string * Column =>
                      v <- as_float (snd kc) ;; Ok (column_flags (dropna_values v)))
                   (map (fun kc : string * list Q => (fst kc, ColNum (map Some (snd kc)))) cols)
              = Ok (map (fun c => column_flags (snd c)) cols)).
  { induction cols as [|c cols IH]; simpl; [reflexivity|].
    rewrite IH, dropna_values_present. reflexivity. }
  rewrite H. reflexivity.
Qed.

Lemma zip_with_orb_nth (a b : list bool) (k : nat) :
  List.length a = List.length b ->
  List.length (zip_with orb a b) = List.length a
  /\ nth k (zip_with orb a b) false = nth k a false || nth k b false.
Proof.
  revert b k. induction a as [|x a IH]; intros [|y b] k H; simpl in *;
    try discriminate H.
  - split; [reflexivity | destruct k; reflexivity].
  - injection H as H. destruct k as [|k].
    + split; [f_equal; apply (IH b 0%nat H) | reflexivity].
    + destruct (IH b k H) as [IH1 IH2]. split; [f_equal; exact IH1 | exact IH2].
Qed.

Lemma fold_orb_nth (flags : list (list bool)) (init : list bool) (k : nat) :
  (forall f, In f flags -> List.length f = List.length init) ->
  List.length (fold_left (zip_with orb) flags init) = List.length init
  /\ nth k (fold_left (zip_with orb) flags init) false
     = nth k init false || existsb (fun f => nth k f false) flags.
Proof.
  revert init. induction flags as [|f flags IH]; intros init H; simpl.
  - split; [reflexivity | rewrite orb_false_r; reflexivity].
  - assert (Hf : List.length init = List.length f)
      by (symmetry; apply H; left; reflexivity).
    destruct (zip_with_orb_nth init f k Hf) as [L N].
    destruct (IH (zip_with orb init f)) as [IH1 IH2].
    { intros g Hg. rewrite L. apply H. right. exact Hg. }
    split; [rewrite IH1; exact L|].
    rewrite IH2, N, orb_assoc. reflexivity.
Qed.

Lemma nth_all_false {A : Type} (l : list A) (k : nat) :
  nth k (map (fun _ => false) l) false = false.
Proof.
  revert k. induction l as [|a l IH]; intros [|k]; simpl; auto.
Qed.

Lemma column_flags_nth (v : list Q) (k : nat) :
  (k < List.length v)%nat ->
  nth k (column_flags v) false
  = zscore_exceeds (nth k v 0%Q) (mean v) (variance v).
Proof.
  intros Hk. unfold column_flags.
  rewrite (nth_indep _ false (zscore_exceeds 0 (mean v) (variance v))).
  - apply (map_nth (fun x => zscore_exceeds x (mean v) (variance v))).
  - rewrite length_map. exact Hk.
Qed.

(** C7, as the code behaves.  In the z-score fallback a row of the
    working subset is flagged exactly when some selected column has
    [|(value - mean) / (std + 1e-9)| > 3], [std] being the population
    standard deviation.  On [[1,2,3,100]] nothing is flagged; on
    [[1,2,3,2,1,2,3,500]] nothing is flagged either: among eight values the
    largest possible [|z|] is the square root of 7. *)
Theorem zscore_fallback_flags_beyond_three :
  forall env idx cols,
    IsolationForest env = None ->
    (forall c, In c cols -> List.length (snd c) = List.length idx) ->
    (exists mask,
        zscore_fallback (numeric_frame idx cols) = Ok (mask_select idx mask)
        /\ List.length mask = List.length idx
        /\ forall k, (k < List.length idx)%nat ->
             (nth k mask false = true <->
              exists c, In c cols
                        /\ (Rabs (z_score (nth k (snd c) 0%Q) (snd c)) > 3)%R))
    /\ anomaly env small_sample = Ok []
    /\ anomaly env wide_outlier = Ok [].
Proof.
  intros env idx cols Hforest Hlen. split; [|split].
  - exists (fold_left (zip_with orb) (map (fun c => column_flags (snd c)) cols)
                      (map (fun _ => false) idx)).
    assert (Hfl : forall f, In f (map (fun c : string * list Q => column_flags (snd c)) cols) ->
                  List.length f = List.length (map (fun _ : nat => false) idx)).
    { intros f Hf. apply in_map_iff in Hf. destruct Hf as [c [<- Hc]].
      unfold column_flags. rewrite !length_map. apply Hlen, Hc. }
    split; [|split].
    + unfold zscore_fallback. rewrite zscore_mask_numeric_frame. reflexivity.
    + destruct (fold_orb_nth _ _ 0%nat Hfl) as [L _]. rewrite L, length_map. reflexivity.
    + intros k Hk. destruct (fold_orb_nth _ _ k Hfl) as [_ N].
      rewrite N, nth_all_false. simpl. rewrite existsb_exists. split.
      * intros [f [Hf Hn]]. apply in_map_iff in Hf. destruct Hf as [c [<- Hc]].
        exists c. split; [exact Hc|].
        rewrite column_flags_nth in Hn by (rewrite (Hlen c Hc); exact Hk).
        apply zscore_exceeds_real in Hn; [exact Hn | apply variance_nonneg].
      * intros [c [Hc Hz]]. exists (column_flags (snd c)). split.
        -- apply in_map_iff. exists c. split; [reflexivity | exact Hc].
        -- rewrite column_flags_nth by (rewrite (Hlen c Hc); exact Hk).
           apply zscore_exceeds_real; [apply variance_nonneg | exact Hz].
  - destruct env as [pf pd inf asf arima forest]. simpl in Hforest. subst forest.
    vm_compute. reflexivity.
  - destruct env as [pf pd inf asf arima forest]. simpl in Hforest. subst forest.
    vm_compute. reflexivity.
Qed.

Lemma zscore_fallback_flags_beyond_three_witness :
  IsolationForest bare_env = None
  /\ anomaly bare_env small_sample = Ok []
  /\ anomaly bare_env wide_outlier = Ok [].
Proof.
  split; [reflexivity|].
  apply (zscore_fallback_flags_beyond_three bare_env [0%nat; 1%nat]
           [("v", [1%Q; 2%Q])]).
  - reflexivity.
  - intros c [<- | []]. reflexivity.
Defined.

(** C7 as stated fails on its second scenario: the row holding 500 (row 7)
    is not flagged by the z-score fallback. *)
Lemma wide_outlier_is_not_flagged :
  exists ids, anomaly bare_env wide_outlier = Ok ids /\ ~ In 7%nat ids.
Proof.
  exists []. split; [vm_compute; reflexivity | intros []].
Qed.

(** ** Tables built from records *)

Lemma add_key_distinct (seen : list string) (k : string) :
  NoDup seen -> NoDup (add_key seen k).
Proof.
  intros H. unfold add_key. destruct (existsb (String.eqb k) seen) eqn:E; [exact H|].
  apply NoDup_app; [exact H | constructor; [intros [] | constructor] |].
  intros a Ha [<- | []].
  assert (Hx : existsb (String.eqb k) seen = true).
  { apply existsb_exists. exists k. split; [exact Ha | apply String.eqb_refl]. }
  congruence.
Qed.

Lemma column_names_distinct (data : list Row) : NoDup (column_names data).
Proof.
  unfold column_names.
  assert (G : forall ks seen, NoDup seen -> NoDup (fold_left add_key ks seen)).
  { induction ks as [|k ks IH]; intros seen H; simpl; [exact H|].
    apply IH, add_key_distinct, H. }
  assert (F : forall rows seen, NoDup seen ->
                NoDup (fold_left (fun seen (r : Row) => fold_left add_key (map fst r) seen)
                                 rows seen)).
  { induction rows as [|r rows IH]; intros seen H; simpl; [exact H|].
    apply IH, G, H. }
  apply F. constructor.
Qed.

(** The labels of a coerced table are distinct, so the trend step applies
    to every table [insights] builds. *)
Lemma coerced_labels_distinct (env : Env) (data : list Row) :
  NoDup (map fst (columns (_coerce_dataframe env data))).
Proof.
  unfold _coerce_dataframe, DataFrame_of. simpl.
  rewrite !map_map. simpl. rewrite map_id. apply column_names_distinct.
Qed.

(** ** The correlation threshold over the reals *)

Lemma Rabs_square (x : R) : (Rabs x * Rabs x = x * x)%R.
Proof.
  rewrite <- Rabs_mult. apply Rabs_pos_eq. nra.
Qed.

(** The test on the squared coefficient decides [|r| < 0.999]. *)
Lemma below_threshold_real (cov sx sy : Q) :
  (0 < sx * sy)%Q ->
  Qltb (sq cov / (sx * sy)) (998001 # 1000000) = true <->
  (abs_pearson cov sx sy < 999 / 1000)%R.
Proof.
  intros Hpos. rewrite Qltb_lt. unfold abs_pearson.
  assert (Hp : (0 < Q2R (sx * sy))%R).
  { apply Qlt_Rlt in Hpos. unfold Q2R at 1 in Hpos. simpl in Hpos. lra. }
  pose proof (sqrt_lt_R0 _ Hp) as Hs.
  pose proof (sqrt_sqrt (Q2R (sx * sy)) (Rlt_le _ _ Hp)) as Hss.
  set (p := Q2R (sx * sy)) in *. set (s := sqrt p) in *.
  set (c := Q2R cov).
  assert (HQ : Q2R (sq cov / (sx * sy)) = (c * c / p)%R).
  { rewrite Q2R_div.
    - unfold sq. rewrite Q2R_mult. reflexivity.
    - intros H0. rewrite H0 in Hpos. discriminate Hpos. }
  assert (HK : Q2R (998001 # 1000000) = (998001 / 1000000)%R).
  { unfold Q2R. simpl. lra. }
  assert (Habs : Rabs (c / s) = (Rabs c / s)%R).
  { unfold Rdiv. rewrite Rabs_mult, (Rabs_pos_eq (/ s)); [reflexivity|].
    left. apply Rinv_0_lt_compat, Hs. }
  rewrite Habs.
  pose proof (Rabs_pos c) as Ha. pose proof (Rabs_square c) as Haa.
  set (a := Rabs c) in *.
  assert (H1 : (a / s < 999 / 1000 <-> a < 999 / 1000 * s)%R).
  { split; intros H.
    - apply Rmult_lt_compat_r with (r := s) in H; [|exact Hs].
      unfold Rdiv in H at 1. rewrite Rmult_assoc, Rinv_l in H; lra.
    - apply Rmult_lt_reg_r with (r := s); [exact Hs|].
      unfold Rdiv at 1. rewrite Rmult_assoc, Rinv_l; lra. }
  assert (H2 : (c * c / p < 998001 / 1000000 <-> c * c < 998001 / 1000000 * p)%R).
  { split; intros H.
    - apply Rmult_lt_compat_r with (r := p) in H; [|exact Hp].
      unfold Rdiv in H at 1. rewrite Rmult_assoc, Rinv_l in H; lra.
    - apply Rmult_lt_reg_r with (r := p); [exact Hp|].
      unfold Rdiv at 1. rewrite Rmult_assoc, Rinv_l; lra. }
  rewrite H1. split.
  - intros H. apply Qlt_Rlt in H. rewrite HQ, HK in H. apply H2 in H. nra.
  - intros H. apply Rlt_Qlt. rewrite HQ, HK. apply H2. nra.
Qed.

(** ** The working subset of numeric columns *)

Lemma mask_select_length {A B : Type} (v : list A) (idx : list B) (keep : list bool) :
  List.length v = List.length idx ->
  List.length (mask_select v keep) = List.length (mask_select idx keep).
Proof.
  revert idx keep. induction v as [|a v IH]; intros [|b idx] [|k keep] H; simpl in *;
    try discriminate H; try reflexivity.
  injection H as H. destruct k; simpl; rewrite (IH idx keep H); reflexivity.
Qed.

Lemma mask_select_present (v : list (option Q)) (keep : list bool) :
  (forall i, nth i keep false = true -> nth i (map is_none v) true = false) ->
  mask_select v keep = map Some (dropna_values (mask_select v keep)).
Proof.
  revert keep. induction v as [|a v IH]; intros [|k keep] H; simpl; try reflexivity.
  assert (Hrec : mask_select v keep = map Some (dropna_values (mask_select v keep))).
  { apply IH. intros i Hi. apply (H (S i) Hi). }
  destruct k; [|exact Hrec].
  specialize (H 0%nat eq_refl). simpl in H.
  destruct a as [q|]; [|discriminate H].
  simpl. rewrite <- Hrec. reflexivity.
Qed.

(** When the selected columns are float columns, the frame handed to the
    fallback is a [numeric_frame] over the labels that survive [dropna]. *)
Lemma working_subset_is_numeric_frame (idx : list nat) (sel : list (string * Column)) :
  (forall kc, In kc sel ->
     exists v, snd kc = ColNum v /\ List.length v = List.length idx) ->
  exists cols,
    dropna {| index := idx; columns := sel |}
    = numeric_frame (mask_select idx (complete_rows idx sel)) cols
    /\ forall c, In c cols ->
         List.length (snd c)
         = List.length (mask_select idx (complete_rows idx sel)).
Proof.
  intros Hsel.
  exists (map (fun kc => (fst kc,
                 dropna_values (mask_select (float_cells (snd kc))
                                            (complete_rows idx sel)))) sel).
  split.
  - unfold dropna, numeric_frame. simpl. f_equal.
    rewrite map_map. apply map_ext_in. intros kc Hkc. simpl.
    destruct (Hsel kc Hkc) as (v & Hv & _).
    rewrite Hv. simpl. f_equal. f_equal.
    apply mask_select_present. intros i Hi.
    pose proof (complete_rows_present sel idx i Hi kc Hkc) as Hp.
    rewrite Hv in Hp. exact Hp.
  - intros c Hc. apply in_map_iff in Hc. destruct Hc as (kc & <- & Hkc). simpl.
    destruct (Hsel kc Hkc) as (v & Hv & Hl).
    rewrite Hv. simpl.
    rewrite <- (mask_select_length v idx _ Hl).
    rewrite (mask_select_present v (complete_rows idx sel)) at 2.
    + rewrite length_map. reflexivity.
    + intros i Hi.
      pose proof (complete_rows_present sel idx i Hi kc Hkc) as Hp.
      rewrite Hv in Hp. exact Hp.
Qed.

(** * Further properties of the handlers *)

(** ** The table built by [_coerce_dataframe] *)

Lemma add_key_In (seen : list string) (k k' : string) :
  In k' (add_key seen k) <-> In k' seen \/ k' = k.
Proof.
  unfold add_key. destruct (existsb (String.eqb k) seen) eqn:E.
  - split; [intros H; left; exact H|].
    intros [H | ->]; [exact H|].
    apply existsb_exists in E. destruct E as (x & Hx & Heq).
    apply String.eqb_eq in Heq. subst x. exact Hx.
  - rewrite in_app_iff. simpl. split.
    + intros [H | [<- | []]]; [left; exact H | right; reflexivity].
    + intros [H | ->]; [left; exact H | right; left; reflexivity].
Qed.

Lemma fold_add_key_In (ks seen : list string) (k : string) :
  In k (fold_left add_key ks seen) <-> In k seen \/ In k ks.
Proof.
  revert seen. induction ks as [|k0 ks IH]; intros seen; simpl.
  - tauto.
  - rewrite IH, add_key_In. split.
    + intros [[H | ->] | H]; auto.
    + intros [H | [<- | H]]; auto.
Qed.

(** The column labels are the keys that occur in the records. *)
Lemma column_names_In (data : list Row) (k : string) :
  In k (column_names data) <-> key_occurs data k.
Proof.
  unfold column_names, key_occurs.
  assert (G : forall rows seen,
             In k (fold_left (fun seen (r : Row) => fold_left add_key (map fst r) seen)
                             rows seen)
             <-> In k seen \/ exists r, In r rows /\ In k (map fst r)).
  { induction rows as [|r rows IH]; intros seen; simpl.
    - split; [intros H; left; exact H|].
      intros [H | (r & [] & _)]. exact H.
    - rewrite IH, fold_add_key_In. split.
      + intros [[H | H] | (r' & Hr' & Hk)].
        * left. exact H.
        * right. exists r. split; [left; reflexivity | exact H].
        * right. exists r'. split; [right; exact Hr' | exact Hk].
      + intros [H | (r' & [<- | Hr'] & Hk)].
        * left. left. exact H.
        * left. right. exact Hk.
        * right. exists r'. split; assumption. }
  rewrite G. simpl. split.
  - intros [[] | H]. exact H.
  - intros H. right. exact H.
Qed.

Lemma mapM_length {A B : Type} (f : A -> Exc B) (l : list A) (bs : list B) :
  mapM f l = Ok bs -> List.length bs = List.length l.
Proof.
  revert bs. induction l as [|a l IH]; intros bs H; simpl in H.
  - injection H as <-. reflexivity.
  - destruct (f a) as [b|e]; simpl in H; [|discriminate H].
    destruct (mapM f l) as [bs'|e]; simpl in H; [|discriminate H].
    injection H as <-. simpl. rewrite (IH bs' eq_refl). reflexivity.
Qed.

Lemma construct_length (vals : list Raw) :
  col_length (construct vals) = List.length vals.
Proof.
  unfold construct.
  destruct (forallb (fun r => is_num r || is_null r) vals && existsb is_num vals);
    [simpl; apply length_map|].
  destruct (forallb is_bool vals && negb (Nat.eqb (List.length vals) 0));
    [simpl; apply length_map | reflexivity].
Qed.

Lemma coerce_column_length (env : Env) (c : Column) :
  col_length (coerce_column env c) = col_length c.
Proof.
  destruct c as [v|v|v|vals]; try reflexivity. simpl.
  destruct (to_numeric env vals) as [v|e] eqn:E1.
  - simpl. apply (mapM_length _ _ _ E1).
  - destruct (to_datetime env vals) as [t|e'] eqn:E2; [|reflexivity].
    simpl. apply (mapM_length _ _ _ E2).
Qed.

Lemma has_column_In (df : DataFrame) (k : string) :
  has_column df k = true <-> In k (map fst (columns df)).
Proof.
  unfold has_column. rewrite existsb_exists, in_map_iff. split.
  - intros (kc & Hin & Heq). apply String.eqb_eq in Heq. exists kc. split; assumption.
  - intros (kc & Heq & Hin). exists kc. split; [exact Hin|].
    apply String.eqb_eq. exact Heq.
Qed.

Lemma coerced_labels (env : Env) (data : list Row) :
  map fst (columns (_coerce_dataframe env data)) = column_names data.
Proof.
  unfold _coerce_dataframe, DataFrame_of. simpl.
  rewrite !map_map. simpl. apply map_id.
Qed.

Lemma coerced_columns_rectangular (env : Env) (data : list Row) :
  Forall (fun kc => col_length (snd kc) = List.length data)
         (columns (_coerce_dataframe env data)).
Proof.
  unfold _coerce_dataframe, DataFrame_of. simpl.
  apply Forall_forall. intros kc Hin.
  apply in_map_iff in Hin. destruct Hin as (kc' & <- & Hin).
  apply in_map_iff in Hin. destruct Hin as (k & <- & _). simpl.
  rewrite coerce_column_length, construct_length. apply length_map.
Qed.

Lemma coerced_has_column (env : Env) (data : list Row) (k : string) :
  has_column (_coerce_dataframe env data) k = true <-> key_occurs data k.
Proof.
  rewrite has_column_In, coerced_labels. apply column_names_In.
Qed.

(** X1: the table built from the records is rectangular.  Its row labels
    are the positions [0 .. n-1] of the records, every column has one cell
    per record, no label occurs twice, and a label is a column exactly when
    it is a key of some record. *)
Theorem coerced_table_is_rectangular :
  forall env data,
    index (_coerce_dataframe env data) = seq 0 (List.length data)
    /\ Forall (fun kc => col_length (snd kc) = List.length data)
              (columns (_coerce_dataframe env data))
    /\ NoDup (map fst (columns (_coerce_dataframe env data)))
    /\ forall k, has_column (_coerce_dataframe env data) k = true <-> key_occurs data k.
Proof.
  intros env data. split; [reflexivity|]. split; [|split].
  - apply coerced_columns_rectangular.
  - rewrite coerced_labels. apply column_names_distinct.
  - intros k. apply coerced_has_column.
Qed.

(** X2: schema inference is idempotent on a column: coercing a column that
    was already coerced changes nothing, whatever the parsers accept. *)
Theorem coerce_column_idempotent :
  forall env c,
    coerce_column env (coerce_column env c) = coerce_column env c.
Proof.
  intros env [v|v|v|vals]; try reflexivity. simpl.
  destruct (to_numeric env vals) as [v|e] eqn:E1; [reflexivity|].
  destruct (to_datetime env vals) as [t|e'] eqn:E2; [reflexivity|].
  simpl. rewrite E1, E2. reflexivity.
Qed.

(** ** The list of findings of [insights] *)

Lemma flat_map_at_most_one {A B : Type} (f : A -> list B) (l : list A) :
  (forall x, (List.length (f x) <= 1)%nat) ->
  (List.length (flat_map f l) <= List.length l)%nat.
Proof.
  intros H. induction l as [|a l IH]; simpl; [lia|].
  rewrite length_app. specialize (H a). lia.
Qed.

Lemma flat_map_Forall {A B : Type} (P : B -> Prop) (f : A -> list B) (l : list A) :
  (forall x, Forall P (f x)) -> Forall P (flat_map f l).
Proof.
  intros H. induction l as [|a l IH]; simpl; [constructor|].
  apply Forall_app. split; [apply H | exact IH].
Qed.

Lemma numeric_summaries_shape (df : DataFrame) (cols : list string) :
  (List.length (numeric_summaries df cols) <= 10)%nat
  /\ Forall (fun i => insight_rank i = 0%nat) (numeric_summaries df cols).
Proof.
  unfold numeric_summaries. split.
  - apply Nat.le_trans with (List.length (firstn 10 cols)).
    + apply flat_map_at_most_one. intros col.
      destruct (numeric_values df col); simpl; lia.
    + apply firstn_le_length.
  - apply flat_map_Forall. intros col.
    destruct (numeric_values df col); repeat constructor.
Qed.

Lemma trend_shape (df : DataFrame) (cols : list string) :
  (List.length (trend df cols) <= 1)%nat
  /\ Forall (fun i => insight_rank i = 1%nat) (trend df cols).
Proof.
  unfold trend.
  destruct (select_dtypes is_datetime df) as [|dt dts]; [split; [simpl; lia | constructor]|].
  destruct cols as [|val cols]; [split; [simpl; lia | constructor]|].
  destruct (get_column df dt) as [[| times | |]|]; try (split; [simpl; lia | constructor]).
  destruct (get_column df val) as [[vals| | |]|]; try (split; [simpl; lia | constructor]).
  destruct (4 <=? _)%nat; split; simpl; try lia; repeat constructor.
Qed.

Lemma correlation_shape (df : DataFrame) (cols : list string) :
  (List.length (correlation df cols) <= 1)%nat
  /\ Forall (fun i => insight_rank i = 2%nat) (correlation df cols).
Proof.
  unfold correlation.
  destruct (2 <=? List.length cols)%nat; [|split; [simpl; lia | constructor]].
  destruct (filter below_threshold (sort_by corr_geb (corr_entries df cols)))
    as [|[[a b] [v|]] rest]; split; simpl; try lia; repeat constructor.
Qed.

Lemma iqr_outliers_shape (df : DataFrame) (cols : list string) :
  (List.length (iqr_outliers df cols) <= 5)%nat
  /\ Forall (fun i => insight_rank i = 3%nat) (iqr_outliers df cols).
Proof.
  unfold iqr_outliers. split.
  - apply Nat.le_trans with (List.length (firstn 5 cols)).
    + apply flat_map_at_most_one. intros col.
      destruct (List.length (numeric_values df col) <? 8)%nat; [simpl; lia|].
      destruct (0 <? _)%nat; simpl; lia.
    + apply firstn_le_length.
  - apply flat_map_Forall. intros col.
    destruct (List.length (numeric_values df col) <? 8)%nat; [constructor|].
    destruct (0 <? _)%nat; repeat constructor.
Qed.

(** X3: the findings of [insights] come in a fixed order and are bounded:
    at most ten column summaries, then at most one trend, then at most one
    correlation, then at most five outlier findings; never more than
    seventeen in all. *)
Theorem insights_are_ordered_and_bounded :
  forall env data,
    exists summaries trends correlations outliers,
      insights_list (insights env data)
      = summaries ++ trends ++ correlations ++ outliers
      /\ (List.length summaries <= 10)%nat
      /\ (List.length trends <= 1)%nat
      /\ (List.length correlations <= 1)%nat
      /\ (List.length outliers <= 5)%nat
      /\ Forall (fun i => insight_rank i = 0%nat) summaries
      /\ Forall (fun i => insight_rank i = 1%nat) trends
      /\ Forall (fun i => insight_rank i = 2%nat) correlations
      /\ Forall (fun i => insight_rank i = 3%nat) outliers
      /\ (List.length (insights_list (insights env data)) <= 17)%nat.
Proof.
  intros env data. unfold insights.
  destruct (empty (_coerce_dataframe env data)).
  - exists [], [], [], []. simpl. repeat split; try lia; constructor.
  - set (df := _coerce_dataframe env data).
    set (cols := select_dtypes is_numeric df).
    destruct (numeric_summaries_shape df cols) as [L1 F1].
    destruct (trend_shape df cols) as [L2 F2].
    destruct (correlation_shape df cols) as [L3 F3].
    destruct (iqr_outliers_shape df cols) as [L4 F4].
    exists (numeric_summaries df cols), (trend df cols),
           (correlation df cols), (iqr_outliers df cols).
    simpl. repeat split; try assumption.
    rewrite !length_app. lia.
Qed.

(** ** The column summaries *)

Section SortAnyOrder.
Context {A : Type} (leb : A -> A -> bool).

Lemma insert_is_permutation (x : A) (l : list A) :
  Permutation (insert leb x l) (x :: l).
Proof.
  induction l as [|y l IH]; simpl.
  - apply Permutation_refl.
  - destruct (leb x y); [apply Permutation_refl|].
    apply perm_trans with (y :: x :: l); [apply perm_skip, IH | apply perm_swap].
Qed.

Lemma sort_by_is_permutation (l : list A) : Permutation (sort_by leb l) l.
Proof.
  induction l as [|x l IH]; simpl; [apply perm_nil|].
  apply perm_trans with (x :: sort_by leb l);
    [apply insert_is_permutation | apply perm_skip, IH].
Qed.
End SortAnyOrder.

Lemma Qle_bool_false (x y : Q) : Qle_bool x y = false -> (y <= x)%Q.
Proof.
  intros H. apply Qlt_le_weak, Qnot_le_lt. intros Hle.
  apply Qle_bool_iff in Hle. congruence.
Qed.

Lemma Qmin_lower (x y : Q) : (Qmin x y <= x)%Q /\ (Qmin x y <= y)%Q.
Proof.
  unfold Qmin. destruct (Qle_bool x y) eqn:E.
  - split; [apply Qle_refl | apply Qle_bool_iff, E].
  - split; [apply Qle_bool_false, E | apply Qle_refl].
Qed.

Lemma Qmax_upper (x y : Q) : (x <= Qmax x y)%Q /\ (y <= Qmax x y)%Q.
Proof.
  unfold Qmax. destruct (Qle_bool x y) eqn:E.
  - split; [apply Qle_bool_iff, E | apply Qle_refl].
  - split; [apply Qle_refl | apply Qle_bool_false, E].
Qed.

Lemma fold_Qmin_lower (l : list Q) (a : Q) :
  (fold_left Qmin l a <= a)%Q /\ forall x, In x l -> (fold_left Qmin l a <= x)%Q.
Proof.
  revert a. induction l as [|y l IH]; intros a; simpl.
  - split; [apply Qle_refl | intros x []].
  - destruct (IH (Qmin a y)) as [H1 H2]. destruct (Qmin_lower a y) as [M1 M2]. split.
    + apply Qle_trans with (Qmin a y); assumption.
    + intros x [<- | Hx]; [apply Qle_trans with (Qmin a y); assumption | apply H2, Hx].
Qed.

Lemma fold_Qmax_upper (l : list Q) (a : Q) :
  (a <= fold_left Qmax l a)%Q /\ forall x, In x l -> (x <= fold_left Qmax l a)%Q.
Proof.
  revert a. induction l as [|y l IH]; intros a; simpl.
  - split; [apply Qle_refl | intros x []].
  - destruct (IH (Qmax a y)) as [H1 H2]. destruct (Qmax_upper a y) as [M1 M2]. split.
    + apply Qle_trans with (Qmax a y); assumption.
    + intros x [<- | Hx]; [apply Qle_trans with (Qmax a y); assumption | apply H2, Hx].
Qed.

Lemma minimum_lower (l : list Q) (x : Q) : In x l -> (minimum l <= x)%Q.
Proof.
  destruct l as [|a l]; [intros []|]. simpl.
  destruct (fold_Qmin_lower l a) as [H1 H2].
  intros [<- | Hx]; [exact H1 | apply H2, Hx].
Qed.

Lemma maximum_upper (l : list Q) (x : Q) : In x l -> (x <= maximum l)%Q.
Proof.
  destruct l as [|a l]; [intros []|]. simpl.
  destruct (fold_Qmax_upper l a) as [H1 H2].
  intros [<- | Hx]; [exact H1 | apply H2, Hx].
Qed.

Lemma Qlen_cons {A : Type} (a : A) (l : list A) : (Qlen (a :: l) == Qlen l + 1)%Q.
Proof.
  unfold Qlen. cbn [List.length]. rewrite Nat2Z.inj_succ.
  unfold Z.succ. rewrite inject_Z_plus. reflexivity.
Qed.

Lemma Qlen_positive {A : Type} (l : list A) : l <> [] -> (0 < Qlen l)%Q.
Proof.
  destruct l as [|a l]; [intros H; contradiction H; reflexivity|]. intros _.
  rewrite Qlen_cons. pose proof (Qlen_nonneg l). lra.
Qed.

Lemma Qsum_between (l : list Q) (a b : Q) :
  (forall x, In x l -> (a <= x <= b)%Q) ->
  (a * Qlen l <= Qsum l <= b * Qlen l)%Q.
Proof.
  induction l as [|x l IH]; intros H.
  - change (Qlen (@nil Q)) with 0%Q. simpl. split; lra.
  - rewrite Qlen_cons. cbn [Qsum fold_right].
    destruct IH as [I1 I2]; [intros y Hy; apply H; right; exact Hy|].
    fold (Qsum l).
    destruct (H x (or_introl eq_refl)) as [X1 X2]. split; lra.
Qed.

Lemma mean_between (l : list Q) (a b : Q) :
  l <> [] ->
  (forall x, In x l -> (a <= x <= b)%Q) ->
  (a <= mean l <= b)%Q.
Proof.
  intros Hne H. pose proof (Qlen_positive l Hne) as Hn.
  destruct (Qsum_between l a b H) as [S1 S2]. unfold mean. split.
  - apply Qle_shift_div_l; assumption.
  - apply Qle_shift_div_r; assumption.
Qed.


Lemma In_rank (i : Insight) (l : list Insight) (n : nat) :
  Forall (fun j => insight_rank j = n) l -> In i l -> insight_rank i = n.
Proof.
  intros F H. rewrite Forall_forall in F. apply F, H.
Qed.



(** ** The reported correlation *)

Section SortTotalOrder.
Context {A : Type} (leb : A -> A -> bool).
Hypothesis leb_total : forall x y, leb x y = true \/ leb y x = true.
Hypothesis leb_trans : forall x y z, leb x y = true -> leb y z = true -> leb x z = true.

Lemma insert_keeps_order (x : A) (l : list A) :
  StronglySorted (fun a b => leb a b = true) l ->
  StronglySorted (fun a b => leb a b = true) (insert leb x l).
Proof.
  induction 1 as [|y l Hs IH Hy]; simpl.
  - constructor; constructor.
  - destruct (leb x y) eqn:E.
    + constructor; [constructor; assumption|].
      constructor; [exact E|].
      apply Forall_impl with (P := fun b => leb y b = true); [|exact Hy].
      intros z Hz. apply (leb_trans x y z E Hz).
    + constructor; [exact IH|].
      apply (Permutation_Forall (Permutation_sym (insert_is_permutation leb x l))).
      constructor; [|exact Hy].
      destruct (leb_total x y) as [H | H]; [congruence | exact H].
Qed.

Lemma sort_by_is_ordered (l : list A) :
  StronglySorted (fun a b => leb a b = true) (sort_by leb l).
Proof.
  induction l as [|x l IH]; simpl; [constructor | apply insert_keeps_order, IH].
Qed.
End SortTotalOrder.

Lemma filter_keeps_order {A : Type} (R : A -> A -> Prop) (f : A -> bool) (l : list A) :
  StronglySorted R l -> StronglySorted R (filter f l).
Proof.
  induction 1 as [|x l Hs IH Hx]; simpl; [constructor|].
  destruct (f x); [|exact IH].
  constructor; [exact IH|].
  rewrite Forall_forall in *. intros y Hy. apply filter_In in Hy. apply Hx, Hy.
Qed.

Lemma corr_geb_total (x y : (string * string) * option Q) :
  corr_geb x y = true \/ corr_geb y x = true.
Proof.
  unfold corr_geb. destruct (snd x) as [p|], (snd y) as [q|]; auto.
  destruct (Qle_bool q p) eqn:E; [left; reflexivity|].
  right. apply Qle_bool_iff, Qle_bool_false, E.
Qed.

Lemma corr_geb_trans (x y z : (string * string) * option Q) :
  corr_geb x y = true -> corr_geb y z = true -> corr_geb x z = true.
Proof.
  unfold corr_geb. destruct (snd x) as [p|], (snd y) as [q|], (snd z) as [r|];
    try discriminate; auto.
  intros H1 H2. apply Qle_bool_iff in H1, H2. apply Qle_bool_iff.
  apply Qle_trans with q; assumption.
Qed.

Lemma complete_pairs_same (xs : list (option Q)) (p : Q * Q) :
  In p (complete_pairs xs xs) -> fst p = snd p.
Proof.
  induction xs as [|[x|] xs IH]; simpl; intros H.
  - contradiction.
  - destruct H as [<- | H]; [reflexivity | apply IH, H].
  - apply IH, H.
Qed.

(** A column against itself has coefficient one wherever it is defined. *)
Lemma corr_sq_self (xs : list (option Q)) (v : Q) :
  corr_sq xs xs = Some v -> (v == 1)%Q.
Proof.
  unfold corr_sq.
  set (ps := complete_pairs xs xs).
  assert (Hmap : map snd ps = map fst ps).
  { apply map_ext_in. intros p Hp. symmetry. apply (complete_pairs_same xs), Hp. }
  rewrite Hmap.
  set (m := mean (map fst ps)).
  assert (Hcov : map (fun p : Q * Q => ((fst p - m) * (snd p - m))%Q) ps
                 = map (fun p => sq (fst p - m)) ps).
  { apply map_ext_in. intros p Hp. rewrite <- (complete_pairs_same xs p Hp).
    reflexivity. }
  assert (Hsy : map (fun p : Q * Q => sq (snd p - m)) ps
                = map (fun p => sq (fst p - m)) ps).
  { apply map_ext_in. intros p Hp. rewrite <- (complete_pairs_same xs p Hp).
    reflexivity. }
  rewrite Hcov, Hsy.
  set (sx := Qsum (map (fun p : Q * Q => sq (fst p - m)) ps)).
  destruct ps; [discriminate|].
  destruct (Qeq_bool (sx * sx) 0) eqn:E; [discriminate|].
  intros H. injection H as <-.
  apply Qeq_bool_neq in E. unfold sq. field.
  intros H0. apply E. rewrite H0. reflexivity.
Qed.

(** X5: the correlation that [insights] reports is between two different
    numeric columns, its squared coefficient is below [0.999^2], and no
    pair of numeric columns below that threshold has a larger one. *)
Theorem reported_correlation_is_strongest_pair :
  forall env data a b v,
    In (Correlation a b v) (insights_list (insights env data)) ->
    let df := _coerce_dataframe env data in
    let cols := select_dtypes is_numeric df in
    a <> b
    /\ In a cols /\ In b cols
    /\ (exists v0, corr_sq (numeric_cells df a) (numeric_cells df b) = Some v0
                   /\ (v == v0)%Q)
    /\ (v < 998001 # 1000000)%Q
    /\ forall a' b' v',
         In a' cols -> In b' cols ->
         corr_sq (numeric_cells df a') (numeric_cells df b') = Some v' ->
         (v' < 998001 # 1000000)%Q ->
         (v' <= v)%Q.
Proof.
  intros env data a b v Hin df cols. unfold insights in Hin. fold df in Hin.
  destruct (empty df); [contradiction|].
  fold cols in Hin. cbn [insights_list] in Hin.
  assert (Hc : In (Correlation a b v) (correlation df cols)).
  { apply in_app_or in Hin. destruct Hin as [H | Hin].
    { apply (In_rank _ _ _ (proj2 (numeric_summaries_shape df cols))) in H.
      discriminate H. }
    apply in_app_or in Hin. destruct Hin as [H | Hin].
    { apply (In_rank _ _ _ (proj2 (trend_shape df cols))) in H. discriminate H. }
    apply in_app_or in Hin. destruct Hin as [H | H]; [exact H|].
    apply (In_rank _ _ _ (proj2 (iqr_outliers_shape df cols))) in H. discriminate H. }
  clear Hin. unfold correlation in Hc.
  destruct (2 <=? List.length cols)%nat; [|contradiction].
  cbv zeta in Hc.
  pose proof (sort_by_is_ordered corr_geb corr_geb_total corr_geb_trans
                (corr_entries df cols)) as Hsorted.
  apply (filter_keeps_order _ below_threshold) in Hsorted.
  assert (Hmem : forall e,
             In e (filter below_threshold (sort_by corr_geb (corr_entries df cols)))
             <-> below_threshold e = true /\ In e (corr_entries df cols)).
  { intros e. rewrite filter_In. split; intros [H1 H2].
    - split; [exact H2|].
      apply (Permutation_in _ (sort_by_is_permutation corr_geb _)), H1.
    - split; [|exact H1].
      apply (Permutation_in _ (Permutation_sym (sort_by_is_permutation corr_geb _))), H2. }
  assert (Hentry : forall a' b' o,
             In ((a', b'), o) (corr_entries df cols)
             <-> In a' cols /\ In b' cols
                 /\ o = corr_sq (numeric_cells df a') (numeric_cells df b')).
  { intros a' b' o. unfold corr_entries. rewrite in_flat_map. split.
    - intros (x & Hx & H). apply in_map_iff in H. destruct H as (y & Heq & Hy).
      injection Heq as -> -> <-. auto.
    - intros (Ha & Hb & ->). exists a'. split; [exact Ha|].
      apply in_map_iff. exists b'. split; [reflexivity | exact Hb]. }
  destruct (filter below_threshold (sort_by corr_geb (corr_entries df cols)))
    as [|[[a0 b0] [v0|]] rest] eqn:Ef; try contradiction.
  remember (Qred v0) as v1 eqn:Ev.
  destruct Hc as [Hc | []]. injection Hc as -> -> ->. subst v.
  destruct (proj1 (Hmem ((a, b), Some v0)) (or_introl eq_refl)) as [Hbelow Hin0].
  apply Hentry in Hin0. destruct Hin0 as (Ha & Hb & Hv0).
  unfold below_threshold in Hbelow. simpl in Hbelow. apply Qltb_lt in Hbelow.
  split.
  { intros ->. symmetry in Hv0. apply corr_sq_self in Hv0.
    rewrite Hv0 in Hbelow. discriminate Hbelow. }
  split; [exact Ha|]. split; [exact Hb|].
  split; [exists v0; split; [symmetry; exact Hv0 | apply Qred_correct]|].
  split; [rewrite Qred_correct; exact Hbelow|].
  intros a' b' v' Ha' Hb' Hv' Hlt. rewrite Qred_correct.
  assert (Hin' : In ((a', b'), Some v') (((a, b), Some v0) :: rest)).
  { apply Hmem. split.
    - unfold below_threshold. simpl. apply Qltb_lt, Hlt.
    - apply Hentry. auto. }
  destruct Hin' as [Heq | Hin'].
  - injection Heq as _ _ ->. apply Qle_refl.
  - inversion Hsorted as [|? ? _ Hall]; subst.
    rewrite Forall_forall in Hall. specialize (Hall _ Hin').
    unfold corr_geb in Hall. simpl in Hall. apply Qle_bool_iff, Hall.
Qed.

Lemma reported_correlation_is_strongest_pair_witness :
  In (Correlation "x" "y" (121 # 175))
     (insights_list (insights bare_env loosely_related_rows))
  /\ "x" <> "y".
Proof.
  assert (H : In (Correlation "x" "y" (121 # 175))
                 (insights_list (insights bare_env loosely_related_rows)))
    by (vm_compute; right; right; left; reflexivity).
  split; [exact H|].
  apply (reported_correlation_is_strongest_pair bare_env loosely_related_rows
           "x" "y" _ H).
Defined.

(** ** The responses of [forecast] *)

(** X6: [forecast] answers with the missing-target message exactly when no
    record of the request has the target as a key (in particular on an
    empty request); otherwise it never gives that answer. *)
Theorem forecast_reports_missing_target :
  forall env req,
    forecast env req = Ok missing_target_response
    <-> ~ key_occurs (forecast_data req) (target_column req).
Proof.
  intros env req.
  pose proof (coerced_has_column env (forecast_data req)) as Hkey.
  unfold forecast.
  destruct (has_column (_coerce_dataframe env (forecast_data req)) (target_column req))
    eqn:E.
  - rewrite (has_column_not_empty _ _ _ E). simpl. split.
    + intros H. exfalso.
      destruct (build_series _ _ _ _) as [ts|e]; simpl in H; [|discriminate H].
      destruct (predict env ts) as [fv|e]; simpl in H; discriminate H.
    + intros H. contradiction H. apply Hkey, E.
  - rewrite orb_true_r. split; [|reflexivity].
    intros _ H. apply Hkey in H. congruence.
Qed.

Lemma fallback_answers_twelve (ts fv : list (option Q)) :
  moving_average_fallback ts = Ok fv -> List.length fv = 12%nat.
Proof.
  unfold moving_average_fallback.
  destruct (rev (dropna_values (rolling_mean (window_size (List.length ts)) ts))).
  - destruct (iloc_last ts); simpl; intros H; [injection H as <-; reflexivity | discriminate H].
  - simpl. intros H. injection H as <-. reflexivity.
Qed.

Lemma predict_answers_twelve (env : Env) (ts fv : list (option Q)) :
  arima_contract env -> predict env ts = Ok fv -> List.length fv = 12%nat.
Proof.
  intros Hc. unfold predict, arima_forecast.
  destruct (sm env) as [arima|] eqn:Esm; [|apply fallback_answers_twelve].
  destruct (8 <=? List.length ts)%nat; [|apply fallback_answers_twelve].
  destruct (arima ts 12%nat) as [fc|e] eqn:Efc; [|apply fallback_answers_twelve].
  intros H. injection H as <-. apply (Hc arima ts 12%nat fc Esm Efc).
Qed.

(** X7: a response of [forecast] is never a partial projection: it is
    either the missing-target message with no value, or it has no message,
    [steps = 12] and exactly twelve values. *)
Theorem forecast_answers_none_or_twelve :
  forall env req r,
    arima_contract env ->
    forecast env req = Ok r ->
    r = missing_target_response
    \/ (message r = None /\ steps r = Some 12%nat
        /\ List.length (forecast_values r) = 12%nat).
Proof.
  intros env req r Hc. unfold forecast.
  destruct (empty _ || negb _).
  - intros H. injection H as <-. left. reflexivity.
  - destruct (build_series _ _ _ _) as [ts|e]; simpl; [|discriminate].
    destruct (predict env ts) as [fv|e] eqn:Ep; simpl; [|discriminate].
    intros H. injection H as <-. right. simpl.
    repeat split. apply (predict_answers_twelve env ts fv Hc Ep).
Qed.

Lemma forecast_answers_none_or_twelve_witness :
  arima_contract persistence_env
  /\ (forecast persistence_env nine_points
        = Ok {| message := None; forecast_values := repeat (Some (inject_Z 9)) 12;
                steps := Some 12%nat |})
  /\ ({| message := None; forecast_values := repeat (Some (inject_Z 9)) 12;
         steps := Some 12%nat |} = missing_target_response
      \/ (None = @None string /\ Some 12%nat = Some 12%nat
          /\ List.length (repeat (Some (inject_Z 9)) 12) = 12%nat)).
Proof.
  assert (Hc : arima_contract persistence_env).
  { intros arima ts n fc Hsm Hfc. injection Hsm as <-. injection Hfc as <-.
    apply repeat_length. }
  split; [exact Hc|]. split; [reflexivity|].
  exact (forecast_answers_none_or_twelve persistence_env nine_points
           {| message := None; forecast_values := repeat (Some (inject_Z 9)) 12;
              steps := Some 12%nat |} Hc eq_refl).
Defined.

(** ** The fallback on a series without gaps *)

Lemma window_size_fits (n : nat) :
  (2 <= n)%nat -> (2 <= window_size n <= 5)%nat /\ (window_size n <= n)%nat.
Proof.
  intros Hn. unfold window_size.
  replace (2 <=? n)%nat with true by (symmetry; apply Nat.leb_le, Hn).
  assert (n / 4 <= n)%nat by (apply Nat.Div0.div_le_upper_bound; lia).
  lia.
Qed.

Lemma window_mean_present (l : list Q) : window_mean (map Some l) = Some (mean l).
Proof.
  unfold window_mean.
  replace (forallb (fun o : option Q => negb (is_none o)) (map Some l)) with true.
  - rewrite dropna_values_present. reflexivity.
  - symmetry. apply forallb_forall. intros o Ho.
    apply in_map_iff in Ho. destruct Ho as (q & <- & _). reflexivity.
Qed.

(** On a gap-free series that is at least as long as the window, the last
    rolling mean is the mean of the last [w] observations. *)
Lemma rolling_mean_last (w : nat) (xs : list Q) :
  (1 <= w <= List.length xs)%nat ->
  exists earlier,
    rev (dropna_values (rolling_mean w (map Some xs)))
    = mean (skipn (List.length xs - w) xs) :: earlier.
Proof.
  intros Hw. unfold rolling_mean. rewrite length_map.
  destruct (List.length xs) as [|k] eqn:En; [lia|].
  rewrite seq_S, map_app, dropna_values_app, rev_app_distr. cbn [map plus].
  replace (w <=? S k)%nat with true by (symmetry; apply Nat.leb_le; lia).
  rewrite skipn_map, firstn_map, window_mean_present.
  rewrite firstn_all2 by (rewrite length_skipn; lia).
  simpl. eexists. reflexivity.
Qed.

Lemma skipn_incl {A : Type} (n : nat) (l : list A) (a : A) :
  In a (skipn n l) -> In a l.
Proof.
  intros H. rewrite <- (firstn_skipn n l). apply in_or_app. right. exact H.
Qed.

(** X8: on a series without gaps the moving-average fallback projects,
    twelve times, the mean of the last [window] observations when there are
    at least two (the window then fits the series), and the single
    observation when there is one; the projected value always lies between
    the smallest and the largest observation. *)
Theorem fallback_projects_recent_mean :
  forall xs,
    xs <> [] ->
    exists v,
      moving_average_fallback (map Some xs) = Ok (repeat (Some v) 12)
      /\ (minimum xs <= v <= maximum xs)%Q
      /\ ((2 <= List.length xs)%nat ->
          (window_size (List.length xs) <= List.length xs)%nat
          /\ v = mean (skipn (List.length xs - window_size (List.length xs)) xs))
      /\ ((List.length xs = 1)%nat -> xs = [v]).
Proof.
  intros xs Hne.
  assert (Hb : forall y, In y xs -> (minimum xs <= y <= maximum xs)%Q).
  { intros y Hy. split; [apply minimum_lower | apply maximum_upper]; exact Hy. }
  destruct xs as [|x [|x' xs]]; [contradiction Hne; reflexivity | |].
  - exists x. split; [reflexivity|]. split; [apply Hb; left; reflexivity|].
    split; [simpl; lia | reflexivity].
  - set (l := x :: x' :: xs) in *.
    assert (Hlen : (2 <= List.length l)%nat) by (simpl; lia).
    destruct (window_size_fits _ Hlen) as [Hw Hfit].
    destruct (rolling_mean_last (window_size (List.length l)) l) as [earlier Hr]; [lia|].
    exists (mean (skipn (List.length l - window_size (List.length l)) l)).
    split; [|split; [|split]].
    + unfold moving_average_fallback. rewrite length_map, Hr. reflexivity.
    + apply mean_between.
      * intros H0. apply (f_equal (@List.length Q)) in H0.
        rewrite length_skipn in H0. change (List.length (@nil Q)) with 0%nat in H0. lia.
      * intros y Hy. apply Hb. apply (skipn_incl _ _ _ Hy).
    + intros _. split; [exact Hfit | reflexivity].
    + simpl. intros H. discriminate H.
Qed.

Lemma fallback_projects_recent_mean_witness :
  [1; 2; 6]%Q <> []
  /\ exists v,
       moving_average_fallback (map Some [1; 2; 6]%Q) = Ok (repeat (Some v) 12)
       /\ (minimum [1; 2; 6] <= v <= maximum [1; 2; 6])%Q
       /\ ((2 <= 3)%nat ->
           (window_size 3 <= 3)%nat
           /\ v = mean (skipn (3 - window_size 3) [1; 2; 6]%Q))
       /\ ((3 = 1)%nat -> [1; 2; 6]%Q = [v]).
Proof.
  assert (H : [1; 2; 6]%Q <> []) by discriminate.
  split; [exact H|].
  apply (fallback_projects_recent_mean [1; 2; 6]%Q H).
Defined.

(** ** A time axis that is too short *)

Lemma complete_pairs_length {A B : Type} (xs : list (option A)) (ys : list (option B)) :
  (List.length (complete_pairs xs ys) <= List.length (dropna_values xs))%nat.
Proof.
  revert ys. induction xs as [|[x|] xs IH]; intros [|[y|] ys]; simpl;
    try lia; specialize (IH ys); lia.
Qed.

Lemma get_column_has_column (df : DataFrame) (k : string) (c : Column) :
  get_column df k = Some c -> has_column df k = true.
Proof.
  unfold get_column, has_column.
  destruct (find _ (columns df)) as [kc|] eqn:E; [|discriminate]. intros _.
  apply find_some in E. apply existsb_exists. exists kc. exact E.
Qed.

(** X9: when the time axis chosen for a forecast (the given date column,
    else the first datetime column) holds fewer than three timestamps, the
    series cannot be built and an exception leaves [forecast], with or
    without [statsmodels]. *)
Theorem forecast_raises_on_short_time_axis :
  forall env req d times,
    has_column (_coerce_dataframe env (forecast_data req)) (target_column req) = true ->
    resolve_dt_col (_coerce_dataframe env (forecast_data req)) (date_column req) = Some d ->
    truthy d = true ->
    get_column (_coerce_dataframe env (forecast_data req)) d = Some (ColTime times) ->
    (List.length (dropna_values times) < 3)%nat ->
    exists e, forecast env req = Raise e.
Proof.
  intros env req d times Ht Hd Htr Hcol Hshort.
  unfold forecast. rewrite (has_column_not_empty _ _ _ Ht), Ht. simpl.
  unfold build_series. rewrite Hd, Htr, (get_column_has_column _ _ _ Hcol). simpl.
  unfold time_series.
  destruct (String.eqb d (target_column req)); [eexists; reflexivity|].
  rewrite Hcol.
  destruct (target_floats _ _) as [vals|e]; simpl; [|eexists; reflexivity].
  replace (List.length (sort_by time_leb (complete_pairs times vals)) <? 3)%nat with true.
  - simpl. eexists; reflexivity.
  - symmetry. apply Nat.ltb_lt.
    rewrite (Permutation_length (sort_by_is_permutation time_leb _)).
    pose proof (complete_pairs_length times vals). lia.
Qed.

Lemma forecast_raises_on_short_time_axis_witness :
  exists e, forecast iso_env two_dated_points = Raise e.
Proof.
  apply (forecast_raises_on_short_time_axis iso_env two_dated_points "d"
           [Some 1704067200000000000%Z; Some 1704153600000000000%Z]).
  - reflexivity.
  - reflexivity.
  - reflexivity.
  - reflexivity.
  - simpl. lia.
Defined.

(** ** How far a value can lie from the mean *)










(** ** The answers of [anomaly] *)

(** What [anomaly] returns is empty or a selection from the labels of the
    rows that are complete in the selected columns. *)
Lemma anomaly_answer_shape (env : Env) (req : AnomalyRequest) (ids : list nat) :
  anomaly env req = Ok ids ->
  ids = []
  \/ exists sel mask,
       select_columns (_coerce_dataframe env (anomaly_data req))
         (py_or (numeric_columns req)
                (select_dtypes is_numeric (_coerce_dataframe env (anomaly_data req))))
       = Ok sel
       /\ ids = mask_select
                  (mask_select (seq 0 (List.length (anomaly_data req)))
                     (complete_rows (seq 0 (List.length (anomaly_data req))) sel))
                  mask.
Proof.
  intros H. unfold anomaly in H.
  set (df := _coerce_dataframe env (anomaly_data req)) in *.
  destruct (empty df); cbv iota in H; [injection H as <-; left; reflexivity|].
  destruct (py_or (numeric_columns req) (select_dtypes is_numeric df)) as [|c cs];
    cbv iota in H; [injection H as <-; left; reflexivity|].
  destruct (select_columns df (c :: cs)) as [sel|e]; unfold bind in H;
    [|discriminate H].
  destruct (empty (dropna {| index := index df; columns := sel |}));
    [injection H as <-; left; reflexivity|].
  apply detector_selects_labels in H. destruct H as [mask ->].
  right. exists sel, mask. split; reflexivity.
Qed.

Lemma seq_increasing (s n : nat) : increasing (seq s n).
Proof.
  revert s. induction n as [|n IH]; intros s; simpl; constructor.
  - apply IH.
  - apply Forall_forall. intros i Hi. apply in_seq in Hi. lia.
Qed.

Lemma mask_select_increasing (l : list nat) (mask : list bool) :
  increasing l -> increasing (mask_select l mask).
Proof.
  intros H. revert mask. induction H as [|x l Hs IH Hx]; intros [|b mask]; simpl;
    try constructor.
  destruct b; [|apply IH].
  constructor; [apply IH|].
  rewrite Forall_forall in *. intros y Hy. apply Hx. apply (mask_select_incl _ _ _ Hy).
Qed.

Lemma increasing_NoDup (l : list nat) : increasing l -> NoDup l.
Proof.
  induction 1 as [|x l Hs IH Hx]; constructor; [|exact IH].
  intros Hin. rewrite Forall_forall in Hx. specialize (Hx x Hin). lia.
Qed.

(** X10: the identifiers that [anomaly] returns are in strictly increasing
    order, so no row is reported twice, whichever strategy produced them. *)
Theorem anomaly_ids_increase :
  forall env req ids,
    anomaly env req = Ok ids -> increasing ids /\ NoDup ids.
Proof.
  intros env req ids H.
  assert (Hinc : increasing ids).
  { apply anomaly_answer_shape in H. destruct H as [-> | (sel & mask & _ & ->)].
    - constructor.
    - apply mask_select_increasing, mask_select_increasing, seq_increasing. }
  split; [exact Hinc | apply increasing_NoDup, Hinc].
Qed.

Lemma anomaly_ids_increase_witness :
  increasing [11%nat] /\ NoDup [11%nat].
Proof.
  apply (anomaly_ids_increase bare_env gap_then_outlier [11%nat]).
  vm_compute. reflexivity.
Defined.

Lemma get_column_In (df : DataFrame) (k : string) (c : Column) :
  get_column df k = Some c -> In (k, c) (columns df).
Proof.
  unfold get_column. destruct (find _ (columns df)) as [[k' c']|] eqn:E; [|discriminate].
  simpl. intros H. injection H as <-. apply find_some in E. destruct E as [Hin Heq].
  simpl in Heq. apply String.eqb_eq in Heq. subst k'. exact Hin.
Qed.

Lemma get_column_none (df : DataFrame) (k : string) :
  has_column df k = false -> get_column df k = None.
Proof.
  intros H. destruct (get_column df k) as [c|] eqn:E; [|reflexivity].
  apply get_column_has_column in E. congruence.
Qed.

(** [df[cols]] succeeds when every label is a column, and keeps the columns. *)
Lemma select_columns_ok (df : DataFrame) (cols : list string) (P : Column -> Prop) :
  (forall k, In k cols -> exists c, get_column df k = Some c /\ P c) ->
  exists sel, select_columns df cols = Ok sel
              /\ forall kc, In kc sel -> P (snd kc).
Proof.
  unfold select_columns. induction cols as [|k cols IH]; intros H; simpl.
  - exists []. split; [reflexivity | intros kc []].
  - destruct (H k (or_introl eq_refl)) as (c & Hc & HP). rewrite Hc. simpl.
    destruct IH as (sel & Hsel & Hall); [intros k' Hk'; apply H; right; exact Hk'|].
    rewrite Hsel. simpl. exists ((k, c) :: sel). split; [reflexivity|].
    intros kc [<- | Hin]; [exact HP | apply Hall, Hin].
Qed.

(** [df[cols]] raises [KeyError] when some label is not a column. *)
Lemma select_columns_key_error (df : DataFrame) (cols : list string) (k : string) :
  In k cols -> get_column df k = None -> select_columns df cols = Raise KeyError.
Proof.
  unfold select_columns. induction cols as [|k' cols IH]; intros Hin Hk; simpl.
  - contradiction.
  - destruct (get_column df k') as [c|] eqn:E; simpl; [|reflexivity].
    destruct Hin as [-> | Hin]; [congruence|].
    rewrite (IH Hin Hk). reflexivity.
Qed.

(** The default selection of a coerced table consists of float columns
    with one cell per record. *)
Lemma default_selection_is_numeric (env : Env) (data : list Row) :
  exists sel,
    select_columns (_coerce_dataframe env data)
      (select_dtypes is_numeric (_coerce_dataframe env data)) = Ok sel
    /\ forall kc, In kc sel ->
         exists v, snd kc = ColNum v
                   /\ List.length v = List.length (seq 0 (List.length data)).
Proof.
  pose proof (coerced_columns_rectangular env data) as Hrect.
  pose proof (coerced_labels_distinct env data) as Hnd.
  apply (select_columns_ok _ _
           (fun c => exists v, c = ColNum v
                               /\ List.length v = List.length (seq 0 (List.length data)))).
  intros k Hk.
  destruct (select_dtypes_get_column is_numeric _ k Hnd Hk) as (c & Hc & Hnum).
  exists c. split; [exact Hc|].
  destruct c as [v| | |]; try discriminate Hnum.
  exists v. split; [reflexivity|].
  rewrite Forall_forall in Hrect. specialize (Hrect _ (get_column_In _ _ _ Hc)).
  simpl in Hrect. rewrite length_seq. exact Hrect.
Qed.

Lemma zscore_fallback_numeric_frame (idx : list nat) (cols : list (string * list Q)) :
  exists mask, zscore_fallback (numeric_frame idx cols) = Ok (mask_select idx mask).
Proof.
  unfold zscore_fallback. rewrite zscore_mask_numeric_frame. simpl.
  eexists. reflexivity.
Qed.

(** X11: with the default column selection (no list, or an empty one)
    [anomaly] never raises: whatever the isolation forest does, and whether
    or not it is installed, the request is answered. *)
Theorem anomaly_default_selection_never_raises :
  forall env req,
    numeric_columns req = None \/ numeric_columns req = Some [] ->
    exists ids, anomaly env req = Ok ids.
Proof.
  intros env req Hdefault. unfold anomaly.
  set (df := _coerce_dataframe env (anomaly_data req)).
  destruct (empty df); [eexists; reflexivity|].
  assert (Hcols : py_or (numeric_columns req) (select_dtypes is_numeric df)
                  = select_dtypes is_numeric df).
  { destruct Hdefault as [-> | ->]; reflexivity. }
  rewrite Hcols.
  destruct (select_dtypes is_numeric df) as [|c cs] eqn:Esel; [eexists; reflexivity|].
  destruct (default_selection_is_numeric env (anomaly_data req)) as (sel & Hsel & Hnum).
  fold df in Hsel. rewrite Esel in Hsel. rewrite Hsel. unfold bind.
  destruct (empty (dropna {| index := index df; columns := sel |}));
    [eexists; reflexivity|].
  destruct (working_subset_is_numeric_frame (index df) sel Hnum) as (cols & -> & _).
  destruct (isolation_forest env _) as [ids|e]; unfold try_except;
    [exists ids; reflexivity|].
  destruct (zscore_fallback_numeric_frame
              (mask_select (index df) (complete_rows (index df) sel)) cols)
    as [mask ->].
  eexists. reflexivity.
Qed.

Lemma anomaly_default_selection_never_raises_witness :
  numeric_columns gap_then_outlier = None
  /\ exists ids, anomaly bare_env gap_then_outlier = Ok ids.
Proof.
  split; [reflexivity|].
  apply (anomaly_default_selection_never_raises bare_env gap_then_outlier).
  left. reflexivity.
Defined.

(** X12: when the table is not empty and the column list names a label
    that is a key of no record, [anomaly] raises [KeyError]; the selection
    happens before the [try]. *)
Theorem anomaly_rejects_unknown_column :
  forall env req cols k,
    numeric_columns req = Some cols ->
    In k cols ->
    ~ key_occurs (anomaly_data req) k ->
    empty (_coerce_dataframe env (anomaly_data req)) = false ->
    anomaly env req = Raise KeyError.
Proof.
  intros env req cols k Hcols Hin Hkey Hne. unfold anomaly. rewrite Hne, Hcols.
  destruct cols as [|c cs]; [contradiction|]. simpl py_or. cbv iota.
  pose proof (coerced_has_column env (anomaly_data req)) as Hk.
  rewrite (select_columns_key_error _ (c :: cs) k Hin); [reflexivity|].
  apply get_column_none.
  destruct (has_column (_coerce_dataframe env (anomaly_data req)) k) eqn:E;
    [|reflexivity].
  contradiction Hkey. apply Hk, E.
Qed.

Lemma anomaly_rejects_unknown_column_witness :
  anomaly bare_env unknown_column = Raise KeyError.
Proof.
  apply (anomaly_rejects_unknown_column bare_env unknown_column ["w"] "w").
  - reflexivity.
  - left. reflexivity.
  - intros (r & [<- | []] & [H | []]). discriminate H.
  - reflexivity.
Defined.

(** ** When the z-score fallback stays silent *)







(** ** Rows with gaps *)

Lemma no_member_nil {A : Type} (l : list A) : (forall a, ~ In a l) -> l = [].
Proof.
  destruct l as [|a l]; [reflexivity|]. intros H.
  contradiction (H a). left. reflexivity.
Qed.

(** X14: when every record lacks a value in at least one selected column,
    the working subset is empty and [anomaly] answers with no anomaly,
    without calling either detector. *)
Theorem anomaly_without_complete_rows :
  forall env req sel,
    select_columns (_coerce_dataframe env (anomaly_data req))
      (py_or (numeric_columns req)
             (select_dtypes is_numeric (_coerce_dataframe env (anomaly_data req))))
    = Ok sel ->
    (forall i, (i < List.length (anomaly_data req))%nat ->
               exists kc, In kc sel /\ nth i (isna (snd kc)) true = true) ->
    anomaly env req = Ok []
    /\ index (dropna {| index := index (_coerce_dataframe env (anomaly_data req));
                        columns := sel |}) = [].
Proof.
  intros env req sel Hsel Hgap.
  set (df := _coerce_dataframe env (anomaly_data req)) in *.
  assert (Hidx : index (dropna {| index := index df; columns := sel |}) = []).
  { simpl. apply no_member_nil. intros i Hi.
    apply mask_select_seq in Hi. destruct Hi as [Hrange Hkeep].
    rewrite Nat.sub_0_r in Hkeep.
    destruct (Hgap i) as (kc & Hin & Hna); [lia|].
    rewrite (complete_rows_present sel _ i Hkeep kc Hin) in Hna. discriminate Hna. }
  split; [|exact Hidx].
  unfold anomaly. fold df.
  destruct (empty df); [reflexivity|].
  rewrite Hsel. destruct (py_or _ _); [reflexivity|]. unfold bind.
  unfold empty at 1. rewrite Hidx. reflexivity.
Qed.

Lemma anomaly_without_complete_rows_witness :
  anomaly bare_env gappy_rows = Ok []
  /\ index (dropna {| index := index (_coerce_dataframe bare_env (anomaly_data gappy_rows));
                      columns := [("v", ColNum [None; Some 2%Q]);
                                  ("w", ColNum [Some 1%Q; None])] |}) = [].
Proof.
  apply (anomaly_without_complete_rows bare_env gappy_rows
           [("v", ColNum [None; Some 2%Q]); ("w", ColNum [Some 1%Q; None])]).
  - reflexivity.
  - intros i Hi. simpl in Hi.
    destruct i as [|[|i]]; [| |lia].
    + exists ("v", ColNum [None; Some 2%Q]). split; [left; reflexivity | reflexivity].
    + exists ("w", ColNum [Some 1%Q; None]). split; [right; left; reflexivity | reflexivity].
Defined.

(** ** The outlier findings *)

Lemma Qle_bool_total (x y : Q) : Qle_bool x y = true \/ Qle_bool y x = true.
Proof.
  destruct (Qle_bool x y) eqn:E; [left; reflexivity|].
  right. apply Qle_bool_iff, Qle_bool_false, E.
Qed.

Lemma Qle_bool_trans (x y z : Q) :
  Qle_bool x y = true -> Qle_bool y z = true -> Qle_bool x z = true.
Proof.
  rewrite !Qle_bool_iff. apply Qle_trans.
Qed.

Lemma sorted_nth_le (s : list Q) (i j : nat) :
  StronglySorted (fun a b => Qle_bool a b = true) s ->
  (i <= j < List.length s)%nat ->
  (nth i s 0 <= nth j s 0)%Q.
Proof.
  intros Hs. revert i j. induction Hs as [|x s Hs IH Hx]; intros i j Hij.
  - simpl in Hij. lia.
  - destruct j as [|j].
    + replace i with 0%nat by lia. apply Qle_refl.
    + destruct i as [|i].
      * simpl. apply Qle_bool_iff. rewrite Forall_forall in Hx. apply Hx.
        apply nth_In. simpl in Hij. lia.
      * simpl. apply IH. simpl in Hij. lia.
Qed.

Lemma Qfloor_scaled (k a : Z) (b : positive) :
  Qfloor (inject_Z k * (a # b)) = (k * a / Z.pos b)%Z.
Proof.
  unfold Qfloor, Qmult, inject_Z. simpl. reflexivity.
Qed.

(** The position and the interpolation weight of a quantile. *)
Lemma quantile_between (q : Q) (l : list Q) :
  let s := sort_by Qle_bool l in
  let lo := Z.to_nat (Qfloor (inject_Z (Z.of_nat (List.length s - 1)) * q)) in
  (lo < List.length s)%nat ->
  (nth lo s 0 <= quantile q l)%Q
  /\ ((S lo < List.length s)%nat -> (quantile q l <= nth (S lo) s 0)%Q).
Proof.
  intros s lo Hlo. unfold quantile. fold s.
  set (pos := (inject_Z (Z.of_nat (List.length s - 1)) * q)%Q).
  fold pos in lo. fold lo.
  assert (Hsorted : StronglySorted (fun a b => Qle_bool a b = true) s)
    by (apply sort_by_is_ordered; [apply Qle_bool_total | apply Qle_bool_trans]).
  pose proof (Qfloor_le pos) as F1. pose proof (Qlt_floor pos) as F2.
  rewrite inject_Z_plus in F2. change (inject_Z 1) with 1%Q in F2.
  set (frac := (pos - inject_Z (Qfloor pos))%Q).
  assert (Hfrac : (0 <= frac < 1)%Q) by (unfold frac; split; lra).
  destruct (Nat.lt_ge_cases (S lo) (List.length s)) as [Hin | Hout].
  - rewrite (nth_indep s (nth lo s 0) 0 Hin).
    assert (Hab : (nth lo s 0 <= nth (S lo) s 0)%Q)
      by (apply sorted_nth_le; [exact Hsorted | lia]).
    split; [|intros _]; nra.
  - rewrite (nth_overflow s (nth lo s 0) Hout). split; [lra | intros H; lia].
Qed.

(** With eight or more values, some value lies between the two quartiles. *)
Lemma value_between_quartiles (l : list Q) :
  (8 <= List.length l)%nat ->
  exists y, In y l /\ (quantile (1 # 4) l <= y <= quantile (3 # 4) l)%Q.
Proof.
  intros Hlen.
  set (s := sort_by Qle_bool l).
  assert (Hperm : Permutation s l) by apply sort_by_is_permutation.
  assert (Hn : List.length s = List.length l) by apply (Permutation_length Hperm).
  assert (Hsorted : StronglySorted (fun a b => Qle_bool a b = true) s)
    by (apply sort_by_is_ordered; [apply Qle_bool_total | apply Qle_bool_trans]).
  pose proof (quantile_between (1 # 4) l) as Q1.
  pose proof (quantile_between (3 # 4) l) as Q3.
  cbv zeta in Q1, Q3. fold s in Q1, Q3.
  rewrite !Qfloor_scaled in Q1, Q3.
  set (k := Z.of_nat (List.length s - 1)) in *.
  assert (Hk : (7 <= k)%Z) by (unfold k; lia).
  assert (Hk' : k = (Z.of_nat (List.length s) - 1)%Z) by (unfold k; lia).
  set (lo1 := Z.to_nat (k * 1 / 4)) in *.
  set (lo3 := Z.to_nat (k * 3 / 4)) in *.
  assert (D1 : (0 <= k * 1 / 4)%Z) by (apply Z.div_pos; lia).
  assert (D2 : (k * 1 / 4 + 1 <= k * 3 / 4)%Z).
  { apply Z.div_le_lower_bound; [lia|].
    pose proof (Z.mul_div_le (k * 1) 4). lia. }
  assert (D3 : (k * 3 / 4 <= k)%Z) by (apply Z.div_le_upper_bound; lia).
  assert (H1 : (S lo1 <= lo3)%nat) by (unfold lo1, lo3; lia).
  assert (H3 : (lo3 < List.length s)%nat) by (unfold lo3; lia).
  destruct Q1 as [_ Q1u]; [lia|]. destruct Q3 as [Q3l _]; [exact H3|].
  exists (nth (S lo1) s 0). split.
  - apply (Permutation_in _ Hperm). apply nth_In. lia.
  - split; [apply Q1u; lia|].
    apply Qle_trans with (nth lo3 s 0); [|exact Q3l].
    apply sorted_nth_le; [exact Hsorted | lia].
Qed.

Lemma filter_misses_one {A : Type} (f : A -> bool) (l : list A) (y : A) :
  In y l -> f y = false -> (List.length (filter f l) < List.length l)%nat.
Proof.
  induction l as [|a l IH]; simpl; intros Hin Hf; [contradiction|].
  destruct Hin as [-> | Hin].
  - rewrite Hf. pose proof (filter_length_le f l). lia.
  - specialize (IH Hin Hf). destruct (f a); simpl; lia.
Qed.

(** X15: an outlier finding of [insights] is about one of the first five
    numeric columns, that column has at least eight values, and the count
    is at least one and smaller than the number of values: the values
    between the quartiles are never counted. *)
Theorem reported_outliers_are_a_proper_part :
  forall env data n col,
    In (Outliers n col) (insights_list (insights env data)) ->
    let df := _coerce_dataframe env data in
    In col (firstn 5 (select_dtypes is_numeric df))
    /\ (8 <= List.length (numeric_values df col))%nat
    /\ (1 <= n < List.length (numeric_values df col))%nat.
Proof.
  intros env data n col Hin df. unfold insights in Hin. fold df in Hin.
  destruct (empty df); [contradiction|].
  set (cols := select_dtypes is_numeric df) in *. cbn [insights_list] in Hin.
  assert (Ho : In (Outliers n col) (iqr_outliers df cols)).
  { apply in_app_or in Hin. destruct Hin as [H | Hin].
    { apply (In_rank _ _ _ (proj2 (numeric_summaries_shape df cols))) in H.
      discriminate H. }
    apply in_app_or in Hin. destruct Hin as [H | Hin].
    { apply (In_rank _ _ _ (proj2 (trend_shape df cols))) in H. discriminate H. }
    apply in_app_or in Hin. destruct Hin as [H | H]; [|exact H].
    apply (In_rank _ _ _ (proj2 (correlation_shape df cols))) in H. discriminate H. }
  clear Hin. unfold iqr_outliers in Ho. apply in_flat_map in Ho.
  destruct Ho as (c & Hc & Ho). cbv zeta in Ho.
  set (s := numeric_values df c) in *.
  destruct (List.length s <? 8)%nat eqn:E8; [contradiction|].
  apply Nat.ltb_ge in E8.
  set (lower := (quantile (1 # 4) s - (3 # 2) * (quantile (3 # 4) s - quantile (1 # 4) s))%Q) in *.
  set (upper := (quantile (3 # 4) s + (3 # 2) * (quantile (3 # 4) s - quantile (1 # 4) s))%Q) in *.
  set (outside := fun x : Q => Qltb x lower || Qltb upper x) in *.
  destruct (0 <? List.length (filter outside s))%nat eqn:E0; [|contradiction].
  apply Nat.ltb_lt in E0.
  destruct Ho as [Ho | []]. injection Ho as <- <-.
  split; [exact Hc|]. split; [exact E8|]. split; [lia|].
  destruct (value_between_quartiles s E8) as (y & Hy & Hq1 & Hq3).
  apply (filter_misses_one outside s y Hy).
  unfold outside. apply orb_false_iff. split.
  - destruct (Qltb y lower) eqn:E; [|reflexivity].
    apply Qltb_lt in E. unfold lower in E. lra.
  - destruct (Qltb upper y) eqn:E; [|reflexivity].
    apply Qltb_lt in E. unfold upper in E. lra.
Qed.

Lemma reported_outliers_are_a_proper_part_witness :
  In (Outliers 1 "v") (insights_list (insights bare_env (anomaly_data wide_outlier)))
  /\ (1 <= 1 < List.length
               (numeric_values (_coerce_dataframe bare_env (anomaly_data wide_outlier)) "v"))%nat.
Proof.
  assert (H : In (Outliers 1 "v")
                 (insights_list (insights bare_env (anomaly_data wide_outlier))))
    by (vm_compute; right; left; reflexivity).
  split; [exact H|].
  apply (reported_outliers_are_a_proper_part bare_env (anomaly_data wide_outlier)
           1%nat "v" H).
Defined.

(** ** A series without observations *)

(** X16: when the target column is present but the series built from the
    request holds no observation, [forecast] raises [IndexError] in every
    runtime: with no point the model is skipped, the moving average is
    empty, and the [except] clause reads the last element of an empty
    series. *)
Theorem forecast_raises_on_empty_series :
  forall env req,
    has_column (_coerce_dataframe env (forecast_data req)) (target_column req) = true ->
    build_series env (_coerce_dataframe env (forecast_data req))
                 (date_column req) (target_column req) = Ok [] ->
    forecast env req = Raise IndexError.
Proof.
  intros env req Ht Hs. unfold forecast.
  rewrite (has_column_not_empty _ _ _ Ht), Ht. simpl. rewrite Hs. simpl.
  unfold predict, arima_forecast. destruct (sm env); reflexivity.
Qed.

Lemma forecast_raises_on_empty_series_witness :
  forecast bare_env all_missing_target = Raise IndexError.
Proof.
  apply (forecast_raises_on_empty_series bare_env all_missing_target); reflexivity.
Defined.
